(** * The agent control loop of [agent.py], embedded and verified

    The development follows the source file top-down: Python strings and
    the token heuristic, the JSON values handled by the [json] module,
    the context budgeter [_create_reasoning_prompt], the transport
    ([_wait_for_response], [_perform_handshake], [call_mcp_tool]) and one
    cycle of the reasoning loop [run]. *)

From Stdlib Require Import String Ascii.
From Stdlib Require Import List ZArith NArith Lia Bool Arith Sorted.
Import ListNotations.

Set Implicit Arguments.
Set Warnings "-register-all".

(** ** Python strings

    A Python [str] is a sequence of Unicode code points; [len] counts code
    points, not bytes.  Literals of the source are written as UTF-8 text
    and decoded by [u]. *)

Module PyStr.

Definition pystr := list N.

Local Open Scope N_scope.

(** UTF-8 decoding of the bytes of a literal (well-formed input only). *)
Fixpoint utf8_decode (bs : list N) : pystr :=
  match bs with
  | [] => []
  | b0 :: r0 =>
    if b0 <? 128 then b0 :: utf8_decode r0
    else match r0 with
    | [] => []
    | b1 :: r1 =>
      if b0 <? 224 then ((b0 - 192) * 64 + (b1 - 128)) :: utf8_decode r1
      else match r1 with
      | [] => []
      | b2 :: r2 =>
        if b0 <? 240
        then ((b0 - 224) * 4096 + (b1 - 128) * 64 + (b2 - 128)) :: utf8_decode r2
        else match r2 with
        | [] => []
        | b3 :: r3 =>
          ((b0 - 240) * 262144 + (b1 - 128) * 4096 + (b2 - 128) * 64 + (b3 - 128))
            :: utf8_decode r3
        end
      end
    end
  end.

Definition u (s : string) : pystr :=
  utf8_decode (map N_of_ascii (list_ascii_of_string s)).

(** Number of bytes of the UTF-8 encoding of a code point, and of a string:
    the byte length a [str] has once written with [encoding='utf-8']. *)
Definition utf8_width (c : N) : nat :=
  if c <? 128 then 1%nat else if c <? 2048 then 2%nat
  else if c <? 65536 then 3%nat else 4%nat.

Definition utf8_length (s : pystr) : nat :=
  fold_right (fun c n => (utf8_width c + n)%nat) 0%nat s.

(** A literal of the source that holds double quotes: the apostrophe
    stands for the double quote. *)
Definition lit (s : string) : pystr :=
  map (fun c => if c =? 39 then 34 else c) (u s).

(** [str.isspace] on one code point; [str.split()], [str.strip()] and the
    regular-expression class [\s] on [str] patterns use the same table. *)
Definition is_space (c : N) : bool :=
  ((9 <=? c) && (c <=? 13)) || ((28 <=? c) && (c <=? 32))
  || (c =? 133) || (c =? 160) || (c =? 5760)
  || ((8192 <=? c) && (c <=? 8202))
  || (c =? 8232) || (c =? 8233) || (c =? 8239) || (c =? 8287) || (c =? 12288).

Definition is_empty (s : pystr) : bool :=
  match s with [] => true | _ => false end.

(** [text.split()]: the maximal runs of non-space characters.  [cur] holds
    the run being read, newest character first. *)
Fixpoint split_go (cur : pystr) (s : pystr) : list pystr :=
  match s with
  | [] => if is_empty cur then [] else [rev cur]
  | c :: r =>
    if is_space c
    then (if is_empty cur then split_go [] r else rev cur :: split_go [] r)
    else split_go (c :: cur) r
  end.

Definition split (s : pystr) : list pystr := split_go [] s.

(** [text.strip()] *)
Fixpoint lstrip (s : pystr) : pystr :=
  match s with
  | c :: r => if is_space c then lstrip r else s
  | [] => []
  end.

Definition strip (s : pystr) : pystr := rev (lstrip (rev (lstrip s))).

Fixpoint eqb (a b : pystr) : bool :=
  match a, b with
  | [], [] => true
  | x :: a', y :: b' => (x =? y) && eqb a' b'
  | _, _ => false
  end.

(** [s.startswith(p)], returning the rest of [s] after [p]. *)
Fixpoint strip_prefix (p s : pystr) : option pystr :=
  match p with
  | [] => Some s
  | x :: p' =>
    match s with
    | y :: s' => if x =? y then strip_prefix p' s' else None
    | [] => None
    end
  end.

(** [s.replace(old, new)]: every non-overlapping occurrence, left to right.
    [skip] counts the characters of a matched occurrence still to drop. *)
Fixpoint replace_go (old new : pystr) (skip : nat) (s : pystr) : pystr :=
  match s with
  | [] => []
  | c :: r =>
    match skip with
    | S k => replace_go old new k r
    | O =>
      match strip_prefix old s with
      | Some _ => new ++ replace_go old new (Nat.pred (length old)) r
      | None => c :: replace_go old new 0 r
      end
    end
  end.

Definition replace (s old new : pystr) : pystr :=
  match old with
  | [] => new ++ flat_map (fun c => c :: new) s
  | _ => replace_go old new 0 s
  end.

(** Decimal digits of a natural number, as [str(n)] prints them. *)
Fixpoint digits_go (fuel : nat) (n : N) (acc : pystr) : pystr :=
  match fuel with
  | O => acc
  | S f =>
    let acc' := (48 + n mod 10) :: acc in
    if n / 10 =? 0 then acc' else digits_go f (n / 10) acc'
  end.

Definition str_of_N (n : N) : pystr := digits_go (S (N.to_nat (N.log2 n))) n [].

Definition str_of_Z (z : Z) : pystr :=
  match z with
  | Zneg p => 45 :: str_of_N (Npos p)
  | _ => str_of_N (Z.to_N z)
  end.

End PyStr.

Import PyStr.

(** ** [estimate_tokens] *)

Definition estimate_tokens (text : pystr) : Z :=
  let words := Z.of_nat (length (split text)) in
  let chars := Z.of_nat (length text) in
  let estimated_tokens := (chars / 4)%Z in
  let min_tokens := words in
  Z.max estimated_tokens min_tokens.

(** The estimate as the specification words it: the larger of the word
    count and a quarter of the byte length. *)
Definition spec_estimate (text : pystr) : Z :=
  Z.max (Z.of_nat (length (split text))) (Z.of_nat (utf8_length text) / 4).

(** ** Exceptions

    Fallible code returns a [result]; [Raise] carries the class of the
    Python exception that leaves the function. *)

Inductive exn : Type :=
| ValueError
| AttributeError
| TypeError
| KeyError
| RuntimeError.

Inductive result (A : Type) : Type :=
| Ok (a : A)
| Raise (e : exn).

Arguments Ok {A} a.
Arguments Raise {A} e.

Definition bind {A B : Type} (r : result A) (k : A -> result B) : result B :=
  match r with
  | Ok a => k a
  | Raise e => Raise e
  end.

Notation "x <- r ;; k" := (bind r (fun x => k))
  (at level 61, r at next level, right associativity).

(** ** JSON values and the [json] module *)

Module Json.

(** What [json.loads] builds.  A [dict] keeps its keys in insertion order,
    each key once.  A float is kept as the literal it was read from. *)
#[warnings="-register-all"]
Inductive json : Type :=
| JNull
| JBool (b : bool)
| JInt (z : Z)
| JFloat (lit : pystr)
| JStr (s : pystr)
| JArr (l : list json)
| JObj (m : list (pystr * json)).

(** Behaviour of the interpreter that is left abstract: IEEE-754 doubles
    (comparison with an [int], truth value, [repr]) and the text of a
    [JSONDecodeError]. *)
Class PyRuntime : Type := {
  float_eq_int : pystr -> Z -> bool;
  float_truthy : pystr -> bool;
  float_repr : pystr -> pystr;
  decode_error_message : pystr -> pystr
}.

Local Open Scope N_scope.

(** [d[k] = v] on a dict. *)
Fixpoint dict_set (m : list (pystr * json)) (k : pystr) (v : json)
  : list (pystr * json) :=
  match m with
  | [] => [(k, v)]
  | (k', v') :: m' =>
    if PyStr.eqb k' k then (k', v) :: m' else (k', v') :: dict_set m' k v
  end.

Fixpoint dict_get (m : list (pystr * json)) (k : pystr) : option json :=
  match m with
  | [] => None
  | (k', v) :: m' => if PyStr.eqb k' k then Some v else dict_get m' k
  end.

Definition is_dict (j : json) : bool :=
  match j with JObj _ => true | _ => false end.

Definition is_list (j : json) : bool :=
  match j with JArr _ => true | _ => false end.

(** [x.get(k)]: only a dict has the method. *)
Definition py_get (x : json) (k : pystr) : result (option json) :=
  match x with
  | JObj m => Ok (dict_get m k)
  | _ => Raise AttributeError
  end.

(** [x.get(k, default)] *)
Definition py_get_default (x : json) (k : pystr) (default : json) : result json :=
  o <- py_get x k ;;
  Ok (match o with Some v => v | None => default end).

Fixpoint is_infix_go (p s : pystr) : bool :=
  match strip_prefix p s with
  | Some _ => true
  | None => match s with [] => false | _ :: s' => is_infix_go p s' end
  end.

(** Equality with a [str] operand: [v == s]. *)
Definition py_eq_str (v : json) (s : pystr) : bool :=
  match v with
  | JStr t => PyStr.eqb t s
  | _ => false
  end.

(** [k in x] for a [str] key [k]: key lookup on a dict, membership on a
    list, substring on a [str]; other values are not containers. *)
Definition py_in (k : pystr) (x : json) : result bool :=
  match x with
  | JObj m => Ok (match dict_get m k with Some _ => true | None => false end)
  | JArr l => Ok (existsb (fun v => py_eq_str v k) l)
  | JStr s => Ok (is_infix_go k s)
  | _ => Raise TypeError
  end.

Section Runtime.
Context {RT : PyRuntime}.

(** Equality with an [int] operand: [v == n] ([True == 1] holds). *)
Definition py_eq_int (v : json) (n : Z) : bool :=
  match v with
  | JInt z => (z =? n)%Z
  | JBool b => ((if b then 1 else 0) =? n)%Z
  | JFloat lit => float_eq_int lit n
  | _ => false
  end.

(** [bool(v)] *)
Definition truthy (v : json) : bool :=
  match v with
  | JNull => false
  | JBool b => b
  | JInt z => negb (z =? 0)%Z
  | JFloat lit => float_truthy lit
  | JStr s => negb (is_empty s)
  | JArr l => match l with [] => false | _ => true end
  | JObj m => match m with [] => false | _ => true end
  end.

End Runtime.

(** *** [json.loads]

    The scanner of the [json] module; a failure is a [JSONDecodeError].
    [OutOfFuel] is an artefact of the recursion on [fuel] and never comes
    out of [json_loads] (see [json_loads_fuel]).  The interpreter's limits
    on nesting depth and on the number of digits of an integer are not
    modelled. *)

Inductive scan (A : Type) : Type :=
| Scanned (a : A) (rest : pystr)
| DecodeError
| OutOfFuel.

Arguments Scanned {A} a rest.
Arguments DecodeError {A}.
Arguments OutOfFuel {A}.

Definition json_ws (c : N) : bool :=
  (c =? 32) || (c =? 9) || (c =? 10) || (c =? 13).

Fixpoint skip_ws (s : pystr) : pystr :=
  match s with
  | c :: r => if json_ws c then skip_ws r else s
  | [] => []
  end.

Definition is_digit (c : N) : bool := (48 <=? c) && (c <=? 57).

Definition hex_value (c : N) : option N :=
  if (48 <=? c) && (c <=? 57) then Some (c - 48)
  else if (97 <=? c) && (c <=? 102) then Some (c - 87)
  else if (65 <=? c) && (c <=? 70) then Some (c - 55)
  else None.

Definition hex4 (a b c d : N) : option N :=
  match hex_value a, hex_value b, hex_value c, hex_value d with
  | Some x, Some y, Some z, Some w => Some (x * 4096 + y * 256 + z * 16 + w)
  | _, _, _, _ => None
  end.

(** The one-letter escapes of a JSON string. *)
Definition unescape (c : N) : option N :=
  if c =? 34 then Some 34 else if c =? 92 then Some 92
  else if c =? 47 then Some 47 else if c =? 98 then Some 8
  else if c =? 102 then Some 12 else if c =? 110 then Some 10
  else if c =? 114 then Some 13 else if c =? 116 then Some 9
  else None.

Definition is_high_surrogate (c : N) : bool := (55296 <=? c) && (c <=? 56319).
Definition is_low_surrogate (c : N) : bool := (56320 <=? c) && (c <=? 57343).

(** The low half of a surrogate pair written as a second [\uXXXX]. *)
Definition low_escape (s : pystr) : option (N * pystr) :=
  match s with
  | b :: l :: g1 :: g2 :: g3 :: g4 :: r =>
    if (b =? 92) && (l =? 117) then
      match hex4 g1 g2 g3 g4 with
      | Some c2 => if is_low_surrogate c2 then Some (c2, r) else None
      | None => None
      end
    else None
  | _ => None
  end.

(** [scanstring] in strict mode, from just after the opening quote; [acc]
    is the text read so far, newest character first. *)
Fixpoint scanstring (s : pystr) (acc : pystr) : option (pystr * pystr) :=
  match s with
  | [] => None
  | c :: r =>
    if c =? 34 then Some (rev acc, r)
    else if c =? 92 then
      match r with
      | [] => None
      | e :: r1 =>
        if e =? 117 then
          match r1 with
          | h1 :: h2 :: h3 :: h4 :: r2 =>
            match hex4 h1 h2 h3 h4 with
            | None => None
            | Some c1 =>
              match r2 with
              | b :: l :: g1 :: g2 :: g3 :: g4 :: r3 =>
                match (if is_high_surrogate c1 then low_escape r2 else None) with
                | Some (c2, _) =>
                  scanstring r3 ((65536 + (c1 - 55296) * 1024 + (c2 - 56320)) :: acc)
                | None => scanstring r2 (c1 :: acc)
                end
              | _ => scanstring r2 (c1 :: acc)
              end
            end
          | _ => None
          end
        else
          match unescape e with
          | Some ch => scanstring r1 (ch :: acc)
          | None => None
          end
      end
    else if c <? 32 then None
    else scanstring r (c :: acc)
  end.

Fixpoint take_digits (s : pystr) (acc : pystr) : pystr * pystr :=
  match s with
  | c :: r => if is_digit c then take_digits r (c :: acc) else (rev acc, s)
  | [] => (rev acc, [])
  end.

Fixpoint Z_of_digits (ds : pystr) (acc : Z) : Z :=
  match ds with
  | [] => acc
  | d :: r => Z_of_digits r (10 * acc + Z.of_N (d - 48))%Z
  end.

(** The integer part of a number: an optional minus sign, then either a
    lone zero or a non-zero digit followed by digits. *)
Definition match_integer (s : pystr) : option (bool * pystr * pystr) :=
  let (neg, s1) :=
    match s with
    | c :: r => if c =? 45 then (true, r) else (false, s)
    | [] => (false, s)
    end in
  match s1 with
  | c :: r =>
    if c =? 48 then Some (neg, [48], r)
    else if is_digit c then
      let (ds, r') := take_digits r [] in Some (neg, c :: ds, r')
    else None
  | [] => None
  end.

(** The optional fraction: a dot and at least one digit. *)
Definition match_frac (s : pystr) : pystr * pystr :=
  match s with
  | p :: d :: r =>
    if (p =? 46) && is_digit d then
      let (ds, r') := take_digits r [] in (p :: d :: ds, r')
    else ([], s)
  | _ => ([], s)
  end.

(** The optional exponent: e or E, an optional sign, at least one digit. *)
Definition match_exp (s : pystr) : pystr * pystr :=
  match s with
  | e :: r =>
    if (e =? 101) || (e =? 69) then
      let (sign, r1) :=
        match r with
        | c :: r' => if (c =? 43) || (c =? 45) then ([c], r') else ([], r)
        | [] => ([], r)
        end in
      match take_digits r1 [] with
      | ([], _) => ([], s)
      | (ds, r2) => (e :: sign ++ ds, r2)
      end
    else ([], s)
  | [] => ([], s)
  end.

Definition match_number (s : pystr) : option (json * pystr) :=
  match match_integer s with
  | None => None
  | Some (neg, ds, r) =>
    let (frac, r1) := match_frac r in
    let (exp, r2) := match_exp r1 in
    if is_empty frac && is_empty exp
    then Some (JInt (if neg then - Z_of_digits ds 0 else Z_of_digits ds 0)%Z, r2)
    else Some (JFloat ((if neg then [45] else []) ++ ds ++ frac ++ exp), r2)
  end.

Definition keyword (k : pystr) (v : json) (s : pystr) : scan json :=
  match strip_prefix k s with
  | Some r => Scanned v r
  | None => DecodeError
  end.

(** [scan_once] with the object and array parsers it calls.  [parse_pairs]
    starts just after the opening quote of a key; [parse_elems] at an
    element. *)
Fixpoint scan_once (fuel : nat) (s : pystr) : scan json :=
  match fuel with
  | O => OutOfFuel
  | S f =>
    match s with
    | [] => DecodeError
    | c :: r =>
      if c =? 34 then
        match scanstring r [] with
        | Some (str, r') => Scanned (JStr str) r'
        | None => DecodeError
        end
      else if c =? 123 then
        match skip_ws r with
        | d :: r' =>
          if d =? 125 then Scanned (JObj []) r'
          else if d =? 34 then parse_pairs f r' []
          else DecodeError
        | [] => DecodeError
        end
      else if c =? 91 then
        match skip_ws r with
        | d :: r' =>
          if d =? 93 then Scanned (JArr []) r' else parse_elems f (skip_ws r) []
        | [] => DecodeError
        end
      else if c =? 110 then keyword (u "null") JNull s
      else if c =? 116 then keyword (u "true") (JBool true) s
      else if c =? 102 then keyword (u "false") (JBool false) s
      else if c =? 78 then keyword (u "NaN") (JFloat (u "NaN")) s
      else if c =? 73 then keyword (u "Infinity") (JFloat (u "Infinity")) s
      else
        match strip_prefix (u "-Infinity") s with
        | Some r' => Scanned (JFloat (u "-Infinity")) r'
        | None =>
          match match_number s with
          | Some (v, r') => Scanned v r'
          | None => DecodeError
          end
        end
    end
  end

with parse_pairs (fuel : nat) (s : pystr) (acc : list (pystr * json)) : scan json :=
  match fuel with
  | O => OutOfFuel
  | S f =>
    match scanstring s [] with
    | None => DecodeError
    | Some (key, s1) =>
      match skip_ws s1 with
      | c :: s2 =>
        if c =? 58 then
          match scan_once f (skip_ws s2) with
          | Scanned v s3 =>
            let acc' := dict_set acc key v in
            match skip_ws s3 with
            | d :: s4 =>
              if d =? 125 then Scanned (JObj acc') s4
              else if d =? 44 then
                match skip_ws s4 with
                | q :: s5 => if q =? 34 then parse_pairs f s5 acc' else DecodeError
                | [] => DecodeError
                end
              else DecodeError
            | [] => DecodeError
            end
          | DecodeError => DecodeError
          | OutOfFuel => OutOfFuel
          end
        else DecodeError
      | [] => DecodeError
      end
    end
  end

with parse_elems (fuel : nat) (s : pystr) (acc : list json) : scan json :=
  match fuel with
  | O => OutOfFuel
  | S f =>
    match scan_once f s with
    | Scanned v s1 =>
      match skip_ws s1 with
      | d :: s2 =>
        if d =? 93 then Scanned (JArr (rev (v :: acc))) s2
        else if d =? 44 then parse_elems f (skip_ws s2) (v :: acc)
        else DecodeError
      | [] => DecodeError
      end
    | DecodeError => DecodeError
    | OutOfFuel => OutOfFuel
    end
  end.

Definition loads_fuel (s : pystr) : nat := (2 * length s + 2)%nat.

(** [json.loads(s)]: leading blanks skipped, one value, nothing but blanks
    after it.  [None] stands for [JSONDecodeError]. *)
Definition json_loads (s : pystr) : option json :=
  match scan_once (loads_fuel s) (skip_ws s) with
  | Scanned v r => if is_empty (skip_ws r) then Some v else None
  | _ => None
  end.

End Json.

Import Json.

(** *** [json.dumps(..., indent=2, ensure_ascii=False)] *)

Module Dumps.

Local Open Scope N_scope.

Definition newline_indent (level : nat) : pystr := 10 :: repeat 32 (2 * level)%nat.

Definition hex_digit (n : N) : N := if n <? 10 then 48 + n else 87 + n.

(** The replacement of one character inside a string: quote, backslash
    and the control characters are escaped, everything else is kept. *)
Definition escape_char (c : N) : pystr :=
  if c =? 34 then [92; 34] else if c =? 92 then [92; 92]
  else if c =? 10 then [92; 110] else if c =? 13 then [92; 114]
  else if c =? 9 then [92; 116] else if c =? 8 then [92; 98]
  else if c =? 12 then [92; 102]
  else if c <? 32 then [92; 117; 48; 48; hex_digit (c / 16); hex_digit (c mod 16)]
  else [c].

Definition encode_basestring (s : pystr) : pystr :=
  34 :: flat_map escape_char s ++ [34].

(** A list or dict around its already serialised members. *)
Definition frame (opening closing : N) (level : nat) (items : list pystr) : pystr :=
  match items with
  | [] => [opening; closing]
  | x :: rest =>
    opening :: newline_indent (S level) ++ x
      ++ flat_map (fun y => 44 :: newline_indent (S level) ++ y) rest
      ++ newline_indent level ++ [closing]
  end.

Section Runtime.
Context {RT : PyRuntime}.

Fixpoint dumps_at (level : nat) (j : json) : pystr :=
  match j with
  | JNull => u "null"
  | JBool true => u "true"
  | JBool false => u "false"
  | JInt z => str_of_Z z
  | JFloat l => float_repr l
  | JStr s => encode_basestring s
  | JArr l => frame 91 93 level (map (dumps_at (S level)) l)
  | JObj m =>
    frame 123 125 level
      (map (fun kv => encode_basestring (fst kv) ++ [58; 32] ++ dumps_at (S level) (snd kv)) m)
  end.

Definition dumps_indent (j : json) : pystr := dumps_at 0 j.

End Runtime.

End Dumps.

Import Dumps.

(** ** [str.__format__]

    The format-spec mini-language as [format(value, spec)] reads it for a
    [str] value; every rejection is a [ValueError]. *)

Module Format.

Local Open Scope N_scope.

Record format_spec : Type := {
  fill : option N;
  align : option N;
  sign : option N;
  no_neg_0 : bool;
  alternate : bool;
  width : pystr;
  thousands : bool;
  precision : option pystr;
  type : option N
}.

Definition is_align (c : N) : bool :=
  (c =? 60) || (c =? 62) || (c =? 61) || (c =? 94).

Definition is_sign (c : N) : bool := (c =? 43) || (c =? 45) || (c =? 32).

Definition take_if (p : N -> bool) (s : pystr) : option N * pystr :=
  match s with
  | c :: r => if p c then (Some c, r) else (None, s)
  | [] => (None, s)
  end.

Definition is_some {A : Type} (o : option A) : bool :=
  match o with Some _ => true | None => false end.

Definition parse_fill_align (spec : pystr) : option N * option N * pystr :=
  match spec with
  | f :: a :: r =>
    if is_align a then (Some f, Some a, r)
    else if is_align f then (None, Some f, a :: r)
    else (None, None, spec)
  | [a] => if is_align a then (None, Some a, []) else (None, None, spec)
  | [] => (None, None, spec)
  end.

(** The presentation types that accept a thousands separator. *)
Definition groups_digits (t : N) : bool :=
  existsb (N.eqb t) (u "defgEG%F").

Definition parse_format_spec (spec : pystr) : result format_spec :=
  let '(fill0, align0, s1) := parse_fill_align spec in
  let (sign0, s2) := take_if is_sign s1 in
  let (z, s3) := take_if (N.eqb 122) s2 in
  let (alt, s4) := take_if (N.eqb 35) s3 in
  let (zero, s5) :=
    if is_some fill0 then (None, s4) else take_if (N.eqb 48) s4 in
  let (width0, s6) := take_digits s5 [] in
  let (comma, s7) := take_if (N.eqb 44) s6 in
  let (under, s8) := take_if (N.eqb 95) s7 in
  let (comma2, _) := take_if (N.eqb 44) s8 in
  if is_some under && (is_some comma || is_some comma2) then Raise ValueError
  else
    let prec :=
      match s8 with
      | d :: r =>
        if d =? 46 then
          let (ds, r') := take_digits r [] in
          if is_empty ds then Raise ValueError else Ok (Some ds, r')
        else Ok (None, s8)
      | [] => Ok (None, s8)
      end in
    pr <- prec ;;
    let (precision0, s9) := pr in
    match s9 with
    | _ :: _ :: _ => Raise ValueError
    | _ =>
      let type0 := hd_error s9 in
      let grouped := is_some comma || is_some under in
      if grouped && negb (match type0 with Some t => groups_digits t | None => false end)
      then Raise ValueError
      else Ok {| fill := match fill0 with Some f => Some f | None => zero end;
                 align := align0; sign := sign0; no_neg_0 := is_some z;
                 alternate := is_some alt; width := width0; thousands := grouped;
                 precision := precision0; type := type0 |}
    end.

Definition nat_of_digits (ds : pystr) : nat := Z.to_nat (Z_of_digits ds 0).

(** [format(value, spec)] for a [str] value. *)
Definition format_str (value spec : pystr) : result pystr :=
  f <- parse_format_spec spec ;;
  if is_some (sign f) || no_neg_0 f || alternate f then Raise ValueError
  else if match align f with Some a => a =? 61 | None => false end then Raise ValueError
  else if match type f with Some t => negb (t =? 115) | None => false end
  then Raise ValueError
  else
    let text :=
      match precision f with
      | Some p => firstn (nat_of_digits p) value
      | None => value
      end in
    let total := (nat_of_digits (width f) - length text)%nat in
    let fillc := match fill f with Some c => c | None => 32 end in
    let left := match align f with
                | Some 62 => total
                | Some 94 => (total / 2)%nat
                | _ => 0%nat
                end in
    Ok (repeat fillc left ++ text ++ repeat fillc (total - left)).

(** [format(Ellipsis, spec)] for the empty spec: [str(Ellipsis)]. *)
Definition str_Ellipsis : pystr := u "Ellipsis".

End Format.

Import Format.

(** ** The context budgeter: [_create_reasoning_prompt] *)

Definition system_prompt : pystr :=
  lit "You are a VK messaging assistant. You can search users, get dialogs, get message history, and chat with people. Always respond with valid JSON.".

Definition max_context_tokens : Z := 5000 - estimate_tokens system_prompt.

Definition _load_tools_hints : pystr :=
  lit "Available tools:
1. 'messages' tool with method 'get_unread_messages' - получить непрочитанные сообщения
2. 'messages' tool with method 'get_conversations' - получить список диалогов
3. 'messages' tool with method 'get_history' - получить историю сообщений (peer_id, count=10)
4. 'messages' tool with method 'send_message' - отправить сообщение (peer_id, message)
5. 'messages' tool with method 'await_any_event' - ждать новые сообщения (duration_s=60)

Алгоритм общения: получить непрочитанные → получить диалоги → написать всем.".

Definition HISTORY_PLACEHOLDER : pystr := u "{HISTORY_PLACEHOLDER}".

(** The f-string [base_prompt_template]. *)
Definition base_prompt_template (task tools_hints : pystr) : pystr :=
  lit "VK messaging assistant. Task: '"
  ++ task
  ++ lit "'

Tools: "
  ++ tools_hints
  ++ lit "

History: {HISTORY_PLACEHOLDER}

ПРОСТОЙ АЛГОРИТМ ПЕРЕПИСКИ:
1. Получить непрочитанные сообщения: messages.get_unread_messages
2. Ответить на каждое сообщение: messages.send_message (peer_id, 'Привет! Как дела?')
3. Ждать новые сообщения: messages.await_any_event (duration_s=60)

ВАЖНО: 
- Отвечай на каждое непрочитанное сообщение
- Пиши только на русском языке
- Будь дружелюбным и общительным

ПРИМЕРЫ:
Получить сообщения: `{'tool': 'messages', 'arguments': {'method': 'get_unread_messages', 'params': {}}}`
Ответить: `{'tool': 'messages', 'arguments': {'method': 'send_message', 'params': {'peer_id': '821539637', 'message': 'Привет! Как дела?'}}}`
Ждать: `{'tool': 'messages', 'arguments': {'method': 'await_any_event', 'params': {'duration_s': 60}}}`

JSON response:".

(** The f-string [minimal_prompt].  Its last paragraph holds the
    replacement field [{"action": {...}}]: the expression is the string
    [action], the format spec is a blank followed by the nested field
    [{...}], the formatted [Ellipsis]. *)
Definition minimal_prompt (task tools_hints : pystr) : result pystr :=
  field <- format_str (u "action") (u " " ++ str_Ellipsis) ;;
  Ok (lit "VK messaging assistant. Task: '"
  ++ task
  ++ lit "'

Tools: "
  ++ tools_hints
  ++ lit "

History: []

ПРОСТОЙ АЛГОРИТМ ПЕРЕПИСКИ:
1. Получить непрочитанные сообщения: messages.get_unread_messages
2. Ответить на каждое сообщение: messages.send_message (peer_id, 'Привет! Как дела?')
3. Ждать новые сообщения: messages.await_any_event (duration_s=60)

ВАЖНО: 
- Отвечай на каждое непрочитанное сообщение
- Пиши только на русском языке
- Будь дружелюбным и общительным

ПРИМЕРЫ (ТОЛЬКО JSON БЕЗ ОБЕРТКИ):
Получить сообщения: `{'tool': 'messages', 'arguments': {'method': 'get_unread_messages', 'params': {}}}`
Ответить: `{'tool': 'messages', 'arguments': {'method': 'send_message', 'params': {'peer_id': '821539637', 'message': 'Привет! Как дела?'}}}`
Ждать: `{'tool': 'messages', 'arguments': {'method': 'await_any_event', 'params': {'duration_s': 60}}}`

ВАЖНО: НЕ ОБОРАЧИВАЙ В "
  ++ field
  ++ lit "! ПИШИ ТОЛЬКО JSON!

JSON response:").

Section Budgeter.
Context {RT : PyRuntime}.

(** [base_prompt_template.replace("{HISTORY_PLACEHOLDER}", json.dumps(items, indent=2, ensure_ascii=False))] *)
Definition render (template : pystr) (items : list json) : pystr :=
  replace template HISTORY_PLACEHOLDER (dumps_indent (JArr items)).

(** The loop over [reversed(history)]: [newest_first] is what is left of the
    reversed history; an item is put in front of [limited_history] while
    the test prompt fits, and the first one that does not ends the loop.
    ([item_tokens] and [current_tokens] are computed by the source and
    never read.) *)
Fixpoint select_history (ceiling : Z) (template : pystr)
    (newest_first limited_history : list json) : list json :=
  match newest_first with
  | [] => limited_history
  | item :: older =>
    let test_history := item :: limited_history in
    let test_prompt := render template test_history in
    let test_tokens := estimate_tokens test_prompt in
    if (test_tokens <=? ceiling)%Z
    then select_history ceiling template older test_history
    else limited_history
  end.

(** The body of [_create_reasoning_prompt] for a given ceiling and block
    of tool hints; the result is [(prompt, needs_reset, items_to_keep)]. *)
Definition create_reasoning_prompt_at (ceiling : Z) (tools_hints : pystr)
    (task : pystr) (history : list json) : result (pystr * bool * nat) :=
  let template := base_prompt_template task tools_hints in
  let limited_history := select_history ceiling template (rev history) [] in
  let prompt := render template limited_history in
  let prompt_tokens := estimate_tokens prompt in
  if (ceiling <? prompt_tokens)%Z then
    forced <- minimal_prompt task tools_hints ;;
    Ok (forced, true, 0%nat)
  else
    let needs_reset :=
      (length limited_history <? length history)%nat && (0 <? length history)%nat in
    let items_to_keep :=
      if needs_reset then length limited_history else length history in
    Ok (prompt, needs_reset, items_to_keep).

Definition _create_reasoning_prompt (task : pystr) (history : list json)
  : result (pystr * bool * nat) :=
  create_reasoning_prompt_at max_context_tokens _load_tools_hints task history.

End Budgeter.

(** ** Transport *)

(** One [stdout_queue.get(timeout=0.1)]: a line put there by the reader
    thread, or [queue.Empty].  A wait is given the reads that happen before
    its deadline, in order; when they are used up the deadline has passed. *)
Inductive poll : Type :=
| Line (line : pystr)
| Empty.

(** The fields of [Agent] the transport uses.  [sent] lists the payloads
    written to the child's stdin, oldest first, each one line of
    [json.dumps(payload)]. *)
Record agent : Type := {
  request_id : Z;
  stdin_open : bool;
  sent : list json
}.

Definition new_agent (stdin_is_open : bool) : agent :=
  {| request_id := 1; stdin_open := stdin_is_open; sent := [] |}.

Definition _send_mcp_raw (a : agent) (payload : json) : agent :=
  if stdin_open a
  then {| request_id := request_id a; stdin_open := stdin_open a;
          sent := sent a ++ [payload] |}
  else a.

Definition next_request_id (a : agent) : agent :=
  {| request_id := request_id a + 1; stdin_open := stdin_open a; sent := sent a |}.

Definition initialize_request (init_id : Z) : json :=
  JObj [(u "jsonrpc", JStr (u "2.0"));
        (u "id", JInt init_id);
        (u "method", JStr (u "initialize"));
        (u "params",
         JObj [(u "protocolVersion", JStr (u "2024-11-05"));
               (u "capabilities", JObj []);
               (u "clientInfo",
                JObj [(u "name", JStr (u "agent-client"));
                      (u "version", JStr (u "1.0.0"))])])].

Definition initialized_notification : json :=
  JObj [(u "jsonrpc", JStr (u "2.0"));
        (u "method", JStr (u "notifications/initialized"))].

Definition tools_call_request (current_id : Z) (name arguments : json) : json :=
  JObj [(u "jsonrpc", JStr (u "2.0"));
        (u "id", JInt current_id);
        (u "method", JStr (u "tools/call"));
        (u "params", JObj [(u "name", name); (u "arguments", arguments)])].

Section Transport.
Context {RT : PyRuntime}.

(** [msg.get('id') == wanted] *)
Definition id_is (msg : json) (wanted : Z) : result bool :=
  v <- py_get msg (u "id") ;;
  Ok (match v with Some x => py_eq_int x wanted | None => false end).

(** [_wait_for_response]: the loop runs once per read. *)
Fixpoint _wait_for_response (request_id : Z) (polls : list poll) : result json :=
  match polls with
  | [] => Ok (JObj [])
  | Empty :: rest => _wait_for_response request_id rest
  | Line line :: rest =>
    match json_loads line with
    | None => _wait_for_response request_id rest
    | Some response =>
      match id_is response request_id with
      | Raise e => Raise e
      | Ok true =>
        has_error <- py_in (u "error") response ;;
        if has_error then Ok (JObj [])
        else py_get_default response (u "result") (JObj [])
      | Ok false => _wait_for_response request_id rest
      end
    end
  end.

(** The [while] loop of [_perform_handshake]; running out of reads is the
    [else] branch, [RuntimeError("Handshake timed out")]. *)
Fixpoint handshake_loop (init_id : Z) (got_init_response : bool)
    (tool_names : json) (polls : list poll) : result json :=
  match polls with
  | [] => Raise RuntimeError
  | Empty :: rest => handshake_loop init_id got_init_response tool_names rest
  | Line line :: rest =>
    match json_loads line with
    | None => handshake_loop init_id got_init_response tool_names rest
    | Some msg =>
      let updated :=
        is_init <- id_is msg init_id ;;
        if is_init then Ok (true, tool_names)
        else
          method <- py_get msg (u "method") ;;
          if match method with Some m => py_eq_str m (u "tools_ready") | None => false end
          then
            params <- py_get_default msg (u "params") (JObj []) ;;
            tools <- py_get_default params (u "tools") (JArr []) ;;
            Ok (got_init_response, tools)
          else Ok (got_init_response, tool_names) in
      match updated with
      | Raise e => Raise e
      | Ok (got, tools) =>
        if got && truthy tools then Ok tools
        else handshake_loop init_id got tools rest
      end
    end
  end.

Definition _perform_handshake (a : agent) (polls : list poll) : agent * result json :=
  let init_id := request_id a in
  let a1 := next_request_id a in
  let a2 := _send_mcp_raw a1 (initialize_request init_id) in
  match handshake_loop init_id false (JArr []) polls with
  | Raise e => (a2, Raise e)
  | Ok tool_names => (_send_mcp_raw a2 initialized_notification, Ok tool_names)
  end.

Definition call_mcp_tool (a : agent) (name arguments : json) (polls : list poll)
  : agent * result json :=
  let current_id := request_id a in
  let a1 := next_request_id a in
  let a2 := _send_mcp_raw a1 (tools_call_request current_id name arguments) in
  (a2, _wait_for_response current_id polls).

End Transport.

(** ** The reasoning loop: one cycle of [run] *)

(** The two searches of step 2, each returning [group(1)].
    [search_fenced]: a fence tagged json, blanks, then from an opening
    brace lazily to the first closing brace that blanks and a closing fence
    follow.  [search_braces]: from the first opening brace lazily to the
    first closing brace after it.  The dot matches newlines. *)

Module Re.

Local Open Scope N_scope.

Definition fence : pystr := u "```".
Definition json_fence : pystr := u "```json".

Definition closes_fence (s : pystr) : bool :=
  match strip_prefix fence (lstrip s) with Some _ => true | None => false end.

Fixpoint upto_fenced_close (s : pystr) : option pystr :=
  match s with
  | [] => None
  | c :: r =>
    if (c =? 125) && closes_fence r then Some [c]
    else option_map (cons c) (upto_fenced_close r)
  end.

Definition fenced_at (s : pystr) : option pystr :=
  match strip_prefix json_fence s with
  | None => None
  | Some r =>
    match lstrip r with
    | c :: r' => if c =? 123 then option_map (cons c) (upto_fenced_close r') else None
    | [] => None
    end
  end.

Fixpoint search_fenced (text : pystr) : option pystr :=
  match fenced_at text with
  | Some g => Some g
  | None => match text with [] => None | _ :: r => search_fenced r end
  end.

Fixpoint upto_close (s : pystr) : option pystr :=
  match s with
  | [] => None
  | c :: r => if c =? 125 then Some [c] else option_map (cons c) (upto_close r)
  end.

Fixpoint search_braces (text : pystr) : option pystr :=
  match text with
  | [] => None
  | c :: r =>
    if c =? 123 then
      match upto_close r with
      | Some g => Some (c :: g)
      | None => search_braces r
      end
    else search_braces r
  end.

End Re.

Import Re.

(** [x[k]] for a [str] key. *)
Definition py_getitem (x : json) (k : pystr) : result json :=
  match x with
  | JObj m => match dict_get m k with Some v => Ok v | None => Raise KeyError end
  | _ => Raise TypeError
  end.

Definition or_null (o : option json) : json :=
  match o with Some v => v | None => JNull end.

(** The local state of [run] together with the agent and the file
    [history.json] ([None] while it does not exist). *)
Record run_state : Type := {
  task : pystr;
  history : list json;
  step : Z;
  transport : agent;
  history_file : option pystr
}.

(** What the outside world does during one cycle.
    [paused]: [None] if [paused.flag] is absent, otherwise what re-reading
    [goal.txt] gives once the flag is gone ([None] for an [IOError]).
    [response_text]: the return value of [ask_mixtral].
    [feedback]: the line [input()] returns.
    [polls]: the queue reads of the tool call.
    [save_ok]: whether [history.json] can be opened for writing.
    [correction]: [None] if [correction.txt] is absent, otherwise its content
    ([None] for an [IOError]). *)
Record cycle_env : Type := {
  paused : option (option pystr);
  response_text : pystr;
  feedback : pystr;
  polls : list poll;
  save_ok : bool;
  correction : option (option pystr)
}.

(** How a cycle ends: at the next iteration of [while True], at the
    [break] of an accepted final answer, or with an exception leaving
    [run]; the state is the one reached at that point. *)
Inductive outcome : Type :=
| Continue (st : run_state)
| GoalAchieved (st : run_state)
| Crashed (e : exn) (st : run_state).

Definition set_history (st : run_state) (h : list json) : run_state :=
  {| task := task st; history := h; step := step st;
     transport := transport st; history_file := history_file st |}.

Definition set_step (st : run_state) (n : Z) : run_state :=
  {| task := task st; history := history st; step := n;
     transport := transport st; history_file := history_file st |}.

Definition set_task (st : run_state) (t : pystr) : run_state :=
  {| task := t; history := history st; step := step st;
     transport := transport st; history_file := history_file st |}.

Definition set_transport (st : run_state) (a : agent) : run_state :=
  {| task := task st; history := history st; step := step st;
     transport := a; history_file := history_file st |}.

Definition set_history_file (st : run_state) (f : option pystr) : run_state :=
  {| task := task st; history := history st; step := step st;
     transport := transport st; history_file := f |}.

(** [history.append(item)] *)
Definition append (st : run_state) (item : json) : run_state :=
  set_history st (history st ++ [item]).

Definition goal_updated_item (new_goal : pystr) : json :=
  JObj [(u "action", JStr (u "goal_updated"));
        (u "result", JObj [(u "new_goal", JStr new_goal)])].

Definition reasoning_error_item (raw : pystr) : json :=
  JObj [(u "action", JStr (u "reasoning_error"));
        (u "raw_response", JStr raw);
        (u "error", JStr (u "No JSON object found"))].

Definition parsing_error_item (raw message : pystr) : json :=
  JObj [(u "action", JStr (u "parsing_error"));
        (u "raw_response", JStr raw);
        (u "error", JStr message)].

Definition final_answer_item (answer : json) (detailed_feedback : pystr) : json :=
  JObj [(u "action", JObj [(u "final_answer_proposed", answer)]);
        (u "result",
         JObj [(u "user_feedback",
                JStr (if is_empty detailed_feedback
                      then u "User rejected the answer."
                      else detailed_feedback))])].

Definition tool_call_item (tool_name tool_args tool_result : json) : json :=
  JObj [(u "action", JObj [(u "tool", tool_name); (u "arguments", tool_args)]);
        (u "result", tool_result)].

Definition emergency_correction_item (correction_text : pystr) : json :=
  JObj [(u "action", JStr (u "emergency_correction"));
        (u "result", JObj [(u "user_feedback", JStr correction_text)])].

Definition invalid_tool_call : pystr :=
  u "Invalid tool call structure in Gemma3 4B response".

(** [history[-items_to_keep:]] for a positive count. *)
Definition last_items (n : nat) (h : list json) : list json :=
  skipn (length h - n) h.

(** What the [try] block of step 2 comes to. *)
Inductive parsed : Type :=
| NoJson
| BadJson (message : pystr)
| FinalAnswer (answer : json)
| ToolCall (tool_name tool_args : json).

Section Loop.
Context {RT : PyRuntime}.

(** The pause check at the top of the cycle. *)
Definition after_pause (env : cycle_env) (st : run_state) : run_state :=
  match paused env with
  | Some (Some content) =>
    let new_task := strip content in
    if PyStr.eqb new_task (task st) then st
    else append (set_task st new_task) (goal_updated_item new_task)
  | _ => st
  end.

(** Step 2, from the two searches to the check of the tool call.  [Raise]
    is an exception the [except] clause does not catch. *)
Definition parse_action (response_text : pystr) : result parsed :=
  let json_match :=
    match search_fenced response_text with
    | Some g => Some g
    | None => search_braces response_text
    end in
  match json_match with
  | None => Ok NoJson
  | Some action_str =>
    match json_loads action_str with
    | None => Ok (BadJson (decode_error_message action_str))
    | Some action0 =>
      wrapped <- py_in (u "action") action0 ;;
      action <-
        (if wrapped then
           inner <- py_getitem action0 (u "action") ;;
           Ok (if is_dict inner then inner else action0)
         else Ok action0) ;;
      final <- py_in (u "final_answer") action ;;
      if final then
        answer <- py_getitem action (u "final_answer") ;;
        Ok (FinalAnswer answer)
      else
        tool_name <- py_get action (u "tool") ;;
        tool_args <- py_get_default action (u "arguments") (JObj []) ;;
        if negb (match tool_name with Some t => truthy t | None => false end)
           || negb (is_dict tool_args)
        then Ok (BadJson invalid_tool_call)
        else Ok (ToolCall (or_null tool_name) tool_args)
    end
  end.

(** The list comprehension over [result["content"]]. *)
Fixpoint collect_text (items : list json) : result (list json) :=
  match items with
  | [] => Ok []
  | item :: rest =>
    has_text <- py_in (u "text") item ;;
    if has_text then
      text <- py_get item (u "text") ;;
      others <- collect_text rest ;;
      Ok (or_null text :: others)
    else collect_text rest
  end.

(** "Learn from successful discoveries": [Agent] has no attribute
    [knowledge], so reaching [self.knowledge] raises. *)
Definition learn_capabilities (tool_args tool_result : json) : result unit :=
  method <- py_get tool_args (u "method") ;;
  if negb (match method with
           | Some m => py_eq_str m (u "__capabilities__")
           | None => false
           end) then Ok tt
  else if negb (truthy tool_result) then Ok tt
  else
    is_error <- py_get tool_result (u "isError") ;;
    if match is_error with Some e => truthy e | None => false end then Ok tt
    else
      has_content <- py_in (u "content") tool_result ;;
      if negb has_content then Ok tt
      else
        content <- py_getitem tool_result (u "content") ;;
        match content with
        | JArr items =>
          capabilities <- collect_text items ;;
          match capabilities with
          | [] => Ok tt
          | _ :: _ => Raise AttributeError
          end
        | _ => Ok tt
        end.

(** Step 4 and the correction check, up to [step += 1]. *)
Definition record_result (env : cycle_env) (st : run_state)
    (tool_name tool_args tool_result : json) : run_state :=
  let st1 := append st (tool_call_item tool_name tool_args tool_result) in
  let st2 :=
    if save_ok env
    then set_history_file st1 (Some (dumps_indent (JArr (history st1))))
    else st1 in
  let st3 :=
    match correction env with
    | Some (Some content) =>
      let correction_text := strip content in
      if is_empty correction_text then st2
      else append st2 (emergency_correction_item correction_text)
    | _ => st2
    end in
  set_step st3 (step st3 + 1).

Definition final_answer_sentinel : pystr := u "Your detailed answer here.".

(** The top of the cycle: pause check, step 1 and the reset of the
    history the budgeter asks for.  The prompt goes to the backend. *)
Definition begin_cycle (env : cycle_env) (st0 : run_state) : result (pystr * run_state) :=
  let st1 := after_pause env st0 in
  budgeted <- _create_reasoning_prompt (task st1) (history st1) ;;
  let '(prompt, needs_reset, items_to_keep) := budgeted in
  if needs_reset then
    let kept := if (0 <? items_to_keep)%nat
                then last_items items_to_keep (history st1) else [] in
    Ok (prompt, set_step (set_history st1 kept) (Z.of_nat (length kept) + 1))
  else Ok (prompt, st1).

(** One iteration of [while True]. *)
Definition run_cycle (env : cycle_env) (st0 : run_state) : outcome :=
  match begin_cycle env st0 with
  | Raise e => Crashed e (after_pause env st0)
  | Ok (_, st2) =>
    match parse_action (response_text env) with
    | Raise e => Crashed e st2
    | Ok NoJson => Continue (append st2 (reasoning_error_item (response_text env)))
    | Ok (BadJson message) =>
      Continue (append st2 (parsing_error_item (response_text env) message))
    | Ok (FinalAnswer answer) =>
      if py_eq_str answer final_answer_sentinel then GoalAchieved st2
      else
        let st3 := append st2 (final_answer_item answer (feedback env)) in
        Continue (set_step st3 (step st3 + 1))
    | Ok (ToolCall tool_name tool_args) =>
      let (a, r) := call_mcp_tool (transport st2) tool_name tool_args (polls env) in
      let st3 := set_transport st2 a in
      match r with
      | Raise e => Crashed e st3
      | Ok tool_result =>
        match learn_capabilities tool_args tool_result with
        | Raise e => Crashed e st3
        | Ok _ => Continue (record_result env st3 tool_name tool_args tool_result)
        end
      end
    end
  end.

(** [while True] over the cycles the outside world allows for. *)
Fixpoint run_loop (envs : list cycle_env) (st : run_state) : outcome :=
  match envs with
  | [] => Continue st
  | env :: later =>
    match run_cycle env st with
    | Continue st' => run_loop later st'
    | ended => ended
    end
  end.

End Loop.

(** ** Notions used to state the properties *)


(** Word counting as a scan: [starts inw s] counts the words that begin in
    [s] when the character before [s] was inside a word iff [inw];
    [state_after] tells whether [s] ends inside a word. *)
Fixpoint starts (inw : bool) (s : pystr) : nat :=
  match s with
  | [] => 0
  | c :: r =>
    if is_space c then starts false r
    else (if inw then 0 else 1) + starts true r
  end.

Fixpoint state_after (inw : bool) (s : pystr) : bool :=
  match s with
  | [] => inw
  | c :: r => state_after (negb (is_space c)) r
  end.

(** [r2] counts at least as many words and characters as [r1] wherever
    both are put. *)
Definition grows (r1 r2 : pystr) : Prop :=
  length r1 <= length r2 /\
  forall inw, starts inw r1 <= starts inw r2 /\ state_after inw r1 = state_after inw r2.

(** A scan that ended, leaving less than it was given. *)
Definition consumed (r : scan json) (s : pystr) : Prop :=
  match r with
  | Scanned _ rest => length rest < length s
  | DecodeError => True
  | OutOfFuel => False
  end.

(** A runtime to evaluate examples with; none of them holds a float. *)
Definition reference_runtime : PyRuntime :=
  {| float_eq_int := fun _ _ => false;
     float_truthy := fun _ => true;
     float_repr := fun l => l;
     decode_error_message := fun _ => u "Expecting value" |}.

(** A candidate history fits when the prompt built from it is estimated
    at or under the ceiling. *)
Definition fits {RT : PyRuntime} (ceiling : Z) (template : pystr)
    (items : list json) : Prop :=
  (estimate_tokens (render template items) <= ceiling)%Z.

(** A goal of twenty thousand letters. *)
Definition overlong_task : pystr := repeat 97%N (20 * 1000).

(** A history of three items for the examples. *)
Definition example_history : list json :=
  [JStr (repeat 97%N 100); JInt 1; JInt 2].

(** What a queue read amounts to for a wait: nothing ([Skipped]: an empty
    read or a line that is not JSON), a JSON value that is not an object,
    or a message. *)
Inductive read : Type :=
| Skipped
| NotAnObject (v : json)
| Message (m : list (pystr * json)).

Definition read_of (p : poll) : read :=
  match p with
  | Empty => Skipped
  | Line line =>
    match json_loads line with
    | None => Skipped
    | Some (JObj m) => Message m
    | Some v => NotAnObject v
    end
  end.

Section TransportNotions.
Context {RT : PyRuntime}.

(** [m.get('id') == wanted] on the fields of a message. *)
Definition has_id (m : list (pystr * json)) (wanted : Z) : bool :=
  match dict_get m (u "id") with
  | Some x => py_eq_int x wanted
  | None => false
  end.

(** A read a wait for [wanted] goes past: nothing, or a message with
    another id. *)
Definition passed_over (wanted : Z) (p : poll) : Prop :=
  match read_of p with
  | Skipped => True
  | Message m => has_id m wanted = false
  | NotAnObject _ => False
  end.

Definition is_tools_ready (m : list (pystr * json)) : bool :=
  match dict_get m (u "method") with
  | Some x => py_eq_str x (u "tools_ready")
  | None => false
  end.

(** How the handshake takes a read: nothing to it, the response to the
    [initialize] request, a [tools_ready] notification with its tool list,
    or a line on which the loop raises. *)
Inductive seen : Type :=
| Noise
| InitResponse
| ToolsReady (tools : json)
| Malformed.

Definition classify (init_id : Z) (p : poll) : seen :=
  match read_of p with
  | Skipped => Noise
  | NotAnObject _ => Malformed
  | Message m =>
    if has_id m init_id then InitResponse
    else if is_tools_ready m then
      match dict_get m (u "params") with
      | None => ToolsReady (JArr [])
      | Some (JObj pm) =>
        ToolsReady (match dict_get pm (u "tools") with Some t => t | None => JArr [] end)
      | Some _ => Malformed
      end
    else Noise
  end.

(** The handshake condition as the specification words it: both messages
    have been read. *)
Definition observed_init (init_id : Z) (polls : list poll) : Prop :=
  Exists (fun p => exists m, read_of p = Message m /\ has_id m init_id = true) polls.

Definition observed_tools_ready (polls : list poll) : Prop :=
  Exists (fun p => exists m, read_of p = Message m /\ is_tools_ready m = true) polls.

(** The agents a process can hold: a new one, and what the handshake and
    tool calls make of it. *)
Inductive reachable : agent -> Prop :=
| reach_new : forall stdin_is_open, reachable (new_agent stdin_is_open)
| reach_handshake : forall a polls,
    reachable a -> reachable (fst (_perform_handshake a polls))
| reach_call : forall a name arguments polls,
    reachable a -> reachable (fst (call_mcp_tool a name arguments polls)).

End TransportNotions.

(** The correlation ids of the requests written so far, oldest first. *)
Definition request_ids (payloads : list json) : list Z :=
  flat_map (fun payload =>
              match payload with
              | JObj m => match dict_get m (u "id") with
                          | Some (JInt i) => [i]
                          | _ => []
                          end
              | _ => []
              end) payloads.

Definition first_ids (n : nat) : list Z := map Z.of_nat (seq 1 n).

(** Example lines of the child's stdout. *)
Definition init_response_line : poll :=
  Line (lit "{'jsonrpc': '2.0', 'id': 1, 'result': {'capabilities': {}}}").

Definition tools_ready_line : poll :=
  Line (lit "{'jsonrpc': '2.0', 'method': 'tools_ready', 'params': {'tools': ['messages']}}").

Definition no_tools_ready_line : poll :=
  Line (lit "{'jsonrpc': '2.0', 'method': 'tools_ready', 'params': {'tools': []}}").

Definition log_line : poll := Line (u "Server starting...").

Definition null_line : poll := Line (u "null").

(** The response of the specification's example, bare and inside a fence,
    and what the lazy search for braces cuts out of the bare one. *)
Definition envelope_response : pystr :=
  lit "{'action': {'tool': 'messages', 'arguments': {'method': 'get_unread_messages', 'params': {}}}}".

Definition envelope_cut : pystr :=
  lit "{'action': {'tool': 'messages', 'arguments': {'method': 'get_unread_messages', 'params': {}".

Definition fenced_envelope_response : pystr :=
  u "Next step:
```json
" ++ envelope_response ++ u "
```".

Definition get_unread_messages_arguments : json :=
  JObj [(u "method", JStr (u "get_unread_messages")); (u "params", JObj [])].

(** The agent as a completed handshake leaves it. *)
Definition ready_agent : agent :=
  {| request_id := 2; stdin_open := true;
     sent := [initialize_request 1; initialized_notification] |}.

(** A run that has just started, and a cycle in which the backend answers
    [text] and the child's stdout delivers [reads]. *)
Definition fresh_run : run_state :=
  {| task := u "greet user"; history := []; step := 1;
     transport := ready_agent; history_file := None |}.

Definition quiet_cycle (text : pystr) (reads : list poll) : cycle_env :=
  {| paused := None; response_text := text; feedback := [];
     polls := reads; save_ok := true; correction := None |}.

(** The same with a [correction.txt] holding [text]. *)
Definition corrected_cycle (text : pystr) (reads : list poll) (correction_text : pystr)
  : cycle_env :=
  {| paused := None; response_text := text; feedback := [];
     polls := reads; save_ok := true; correction := Some (Some correction_text) |}.

(** The premise of the "learning" branch: the call asked for
    [__capabilities__] and the result is a dict without a true [isError]
    whose [content] is the list [items], one of them an object with a
    [text] key. *)
Definition capabilities_reply {RT : PyRuntime} (tool_args tool_result : json)
    (items : list json) : Prop :=
  (exists am v, tool_args = JObj am /\ dict_get am (u "method") = Some v /\
                py_eq_str v (u "__capabilities__") = true) /\
  (exists rm, tool_result = JObj rm /\
              match dict_get rm (u "isError") with
              | Some e => truthy e
              | None => false
              end = false /\
              dict_get rm (u "content") = Some (JArr items)) /\
  Exists (fun item => exists im v, item = JObj im /\ dict_get im (u "text") = Some v) items.

Definition capabilities_arguments : json :=
  JObj [(u "method", JStr (u "__capabilities__"))].

Definition capabilities_response : pystr :=
  lit "```json
{'tool': 'messages', 'arguments': {'method': '__capabilities__'}}
```".

Definition capabilities_result_line : poll :=
  Line (lit "{'jsonrpc': '2.0', 'id': 2, 'result': {'content': [{'type': 'text', 'text': 'send_message'}]}}").

Definition send_message_result_line : poll :=
  Line (lit "{'jsonrpc': '2.0', 'id': 2, 'result': {'content': [{'type': 'text', 'text': '[]'}]}}").

Definition send_message_result : json :=
  JObj [(u "content",
         JArr [JObj [(u "type", JStr (u "text")); (u "text", JStr (u "[]"))]])].

Definition capabilities_result : json :=
  JObj [(u "content",
         JArr [JObj [(u "type", JStr (u "text"));
                     (u "text", JStr (u "send_message"))]])].

(** A reply whose content list starts with [null]. *)
Definition null_first_result : json :=
  JObj [(u "content", JArr [JNull; JObj [(u "text", JStr (u "send_message"))]])].

Definition send_message_response : pystr :=
  lit "```json
{'tool': 'messages', 'arguments': {'method': 'send_message', 'params': {'peer_id': '821539637', 'message': 'Привет! Как дела?'}}}
```".

Definition send_message_arguments : json :=
  JObj [(u "method", JStr (u "send_message"));
        (u "params", JObj [(u "peer_id", JStr (u "821539637"));
                           (u "message", JStr (u "Привет! Как дела?"))])].

Definition second_result_line : poll :=
  Line (lit "{'jsonrpc': '2.0', 'id': 3, 'result': {'content': [{'type': 'text', 'text': '[]'}]}}").

(** ** Further functions of [agent.py] *)

(** *** [ask_mixtral]

    What one turn of the retry loop comes to, by the [except] clause that
    takes it: a [requests] exception (no connection, timeout, bad status),
    any other exception, or the decoded body of the reply. *)
Inductive attempt : Type :=
| RequestFailed
| OtherFailure
| Body (body : json).

(** The [try] block once the body is there.  A body without the key, a
    body that is no container, and a [response] that is not a [str] (on
    which [estimate_tokens] raises) all end in the empty string. *)
Definition read_body (body : json) : pystr :=
  match py_in (u "response") body with
  | Ok true =>
    match py_getitem body (u "response") with
    | Ok (JStr response_text) => response_text
    | _ => []
    end
  | _ => []
  end.

(** The [for] loop from turn [attempt] on, [retries_left] turns to go. *)
Fixpoint attempts_from (outcome : nat -> attempt) (attempt retries_left : nat)
  : pystr :=
  match retries_left with
  | O => []
  | S k =>
    match outcome attempt with
    | RequestFailed => attempts_from outcome (S attempt) k
    | OtherFailure => []
    | Body body => read_body body
    end
  end.

Definition ask_mixtral (outcome : nat -> attempt) (retries : nat) : pystr :=
  attempts_from outcome 0 retries.

(** The value of [retries] when [run] calls [ask_mixtral(prompt)]. *)
Definition default_retries : nat := 3.

(** *** The start of [run]

    [goal_txt] is the content of [goal.txt], [None] when the file is not
    there; [history_json] is the content of [history.json], [None] when it
    does not exist, and [readable] tells whether it can be opened and
    read. *)
Inductive start : Type :=
| NothingToDo
| Running (st : run_state)
| ForeignHistory (v : json).

(** [run] up to the first cycle.  A [history.json] that holds JSON other
    than a list is handed on as it is ([ForeignHistory]); what the loop does
    with such a value is not modelled. *)
Definition start_run (a : agent) (goal_txt : option pystr)
    (history_json : option pystr) (readable : bool) : start :=
  match goal_txt with
  | None => NothingToDo
  | Some content =>
    let task0 := strip content in
    if is_empty task0 then NothingToDo
    else
      let begin (h : list json) :=
        Running {| task := task0; history := h;
                   step := Z.of_nat (length h) + 1;
                   transport := a; history_file := history_json |} in
      match history_json with
      | None => begin []
      | Some text =>
        if readable then
          match json_loads text with
          | None => begin []
          | Some (JArr l) => begin l
          | Some v => ForeignHistory v
          end
        else begin []
      end
  end.

(** The state a cycle ends in, however it ends. *)
Definition outcome_state (o : outcome) : run_state :=
  match o with
  | Continue st => st
  | GoalAchieved st => st
  | Crashed _ st => st
  end.

(** JSON that [json.dumps] and [json.loads] carry back and forth as it
    is: no float in it, and no key twice in a dict. *)
Fixpoint distinct (ks : list pystr) : bool :=
  match ks with
  | [] => true
  | k :: r => negb (existsb (PyStr.eqb k) r) && distinct r
  end.

Fixpoint plain (v : json) : bool :=
  match v with
  | JFloat _ => false
  | JArr l => forallb plain l
  | JObj m => distinct (map fst m) && forallb (fun kv => plain (snd kv)) m
  | _ => true
  end.

(** The number of values in a JSON value, counted with their places. *)
Fixpoint size (v : json) : nat :=
  match v with
  | JArr l => S (fold_right (fun e n => S (size e + n)) 0 l)
  | JObj m => S (fold_right (fun kv n => S (size (snd kv) + n)) 0 m)
  | _ => 1
  end.

(** What may follow a value in the output of [json.dumps] with an indent:
    nothing, a comma or a newline. *)
Definition ends_value (rest : pystr) : Prop :=
  match rest with
  | [] => True
  | c :: _ => c = 44%N \/ c = 10%N
  end.

(** What the round trip says of one value: with fuel for its size, the
    scanner reads the value back from what [json.dumps] wrote for it at any
    indentation level and stops where that text ends. *)
Definition reads_back {RT : PyRuntime} (v : json) : Prop :=
  plain v = true ->
  forall level rest fuel, ends_value rest -> size v <= fuel ->
  scan_once fuel (dumps_at level v ++ rest) = Scanned v rest.

(** * Properties *)

(** ** The token heuristic *)



(** On text made of ASCII characters only, characters and bytes coincide
    and the heuristic is the one the specification words. *)
Lemma estimate_tokens_ascii : forall s,
  Forall (fun c => (c < 128)%N) s -> estimate_tokens s = spec_estimate s.
Proof.
  intros s H.
  assert (E : utf8_length s = length s).
  { induction H as [|c s Hc _ IH]; simpl; [reflexivity|].
    unfold utf8_width. apply N.ltb_lt in Hc. rewrite Hc. simpl. now rewrite IH. }
  unfold estimate_tokens, spec_estimate. rewrite E. lia.
Qed.



(** ** Counting words through concatenation and replacement *)

Lemma split_go_length : forall s cur,
  length (split_go cur s)
  = (if is_empty cur then 0 else 1) + starts (negb (is_empty cur)) s.
Proof.
  induction s as [|c r IH]; intros cur; simpl.
  - destruct (is_empty cur); reflexivity.
  - destruct (is_space c).
    + destruct (is_empty cur) eqn:E; simpl; rewrite IH; simpl; lia.
    + rewrite IH. simpl. destruct (is_empty cur); simpl; lia.
Qed.

Lemma split_length : forall s, length (split s) = starts false s.
Proof. intros s. unfold split. rewrite split_go_length. reflexivity. Qed.

Lemma starts_app : forall a b inw,
  starts inw (a ++ b) = starts inw a + starts (state_after inw a) b.
Proof.
  induction a as [|c a IH]; intros b inw; simpl; [reflexivity|].
  destruct (is_space c); simpl; rewrite IH; lia.
Qed.

Lemma state_after_app : forall a b inw,
  state_after inw (a ++ b) = state_after (state_after inw a) b.
Proof.
  induction a as [|c a IH]; intros b inw; simpl; [reflexivity|apply IH].
Qed.

Lemma grows_refl : forall r, grows r r.
Proof. intros r. split; [lia|]. intros inw. split; [lia|reflexivity]. Qed.

Lemma grows_trans : forall a b c, grows a b -> grows b c -> grows a c.
Proof.
  intros a b c [L1 W1] [L2 W2]. split; [lia|].
  intros inw. destruct (W1 inw) as [S1 E1]. destruct (W2 inw) as [S2 E2].
  split; [lia|congruence].
Qed.

(** Both sides in the same context. *)
Lemma grows_context : forall p q r1 r2,
  grows r1 r2 -> grows (p ++ r1 ++ q) (p ++ r2 ++ q).
Proof.
  intros p q r1 r2 [L W]. split.
  - rewrite !length_app. lia.
  - intros inw. rewrite !starts_app, !state_after_app.
    destruct (W (state_after inw p)) as [S E]. rewrite E. split; [lia|reflexivity].
Qed.

(** Text put in at a place between words, and ending between words. *)
Lemma grows_insert : forall p x q,
  (forall inw, state_after inw p = false) ->
  (forall inw, state_after inw x = false) ->
  grows (p ++ q) (p ++ x ++ q).
Proof.
  intros p x q Hp Hx. split.
  - rewrite !length_app. lia.
  - intros inw. rewrite !starts_app, !state_after_app, Hp, Hx.
    split; [lia|reflexivity].
Qed.

Section Replace.
Variables old r1 r2 : pystr.
Hypothesis Hgrows : grows r1 r2.

Lemma replace_go_length : forall s skip,
  length (replace_go old r1 skip s) <= length (replace_go old r2 skip s).
Proof.
  destruct Hgrows as [L _].
  induction s as [|c r IH]; intros skip; simpl; [lia|].
  destruct skip as [|k]; [|apply IH].
  destruct (strip_prefix old (c :: r)).
  - rewrite !length_app. specialize (IH (Nat.pred (length old))). lia.
  - simpl. specialize (IH 0). lia.
Qed.

Lemma replace_go_starts : forall s skip inw,
  starts inw (replace_go old r1 skip s) <= starts inw (replace_go old r2 skip s)
  /\ state_after inw (replace_go old r1 skip s)
     = state_after inw (replace_go old r2 skip s).
Proof.
  destruct Hgrows as [_ W].
  induction s as [|c r IH]; intros skip inw; simpl; [split; [lia|reflexivity]|].
  destruct skip as [|k]; [|apply IH].
  destruct (strip_prefix old (c :: r)).
  - rewrite !starts_app, !state_after_app.
    destruct (W inw) as [S E]. rewrite E.
    destruct (IH (Nat.pred (length old)) (state_after inw r2)) as [S' E'].
    split; [lia|exact E'].
  - simpl. destruct (is_space c); simpl.
    + apply IH.
    + destruct (IH 0 true) as [S' E']. split; [lia|exact E'].
Qed.

Lemma replace_go_grows : forall s skip,
  grows (replace_go old r1 skip s) (replace_go old r2 skip s).
Proof.
  intros s skip. split; [apply replace_go_length|].
  intros inw. apply replace_go_starts.
Qed.

End Replace.

Lemma estimate_tokens_grows : forall a b,
  grows a b -> (estimate_tokens a <= estimate_tokens b)%Z.
Proof.
  intros a b [L W]. unfold estimate_tokens. rewrite !split_length.
  destruct (W false) as [S _].
  assert (Z.of_nat (length a) / 4 <= Z.of_nat (length b) / 4)%Z
    by (apply Z.div_le_mono; lia).
  lia.
Qed.

(** ** The serialised history grows with every item put in front *)

Lemma state_after_last : forall s c inw,
  state_after inw (s ++ [c]) = negb (is_space c).
Proof. intros s c inw. rewrite state_after_app. reflexivity. Qed.

Lemma frame_cons_grows : forall y items,
  grows (frame 91 93 0 items) (frame 91 93 0 (y :: items)).
Proof.
  intros y [|x rest].
  - split.
    + simpl. rewrite !length_app. simpl. lia.
    + intros inw. cbn [frame flat_map app].
      rewrite app_comm_cons, !app_assoc, state_after_last, starts_app.
      simpl. destruct inw; split; try reflexivity; lia.
  - set (f := fun y0 : list N => 44%N :: newline_indent 1 ++ y0).
    set (q := x ++ flat_map f rest ++ newline_indent 0 ++ [93%N]).
    set (p := 91%N :: newline_indent 1).
    assert (E1 : frame 91 93 0 (x :: rest) = p ++ q) by reflexivity.
    assert (E2 : frame 91 93 0 (y :: x :: rest) = p ++ (y ++ 44%N :: newline_indent 1) ++ q).
    { unfold p, q. cbn [frame flat_map]. fold f. unfold f at 1.
      simpl. rewrite <- !app_assoc. reflexivity. }
    rewrite E1, E2.
    apply grows_insert; intros inw.
    + reflexivity.
    + rewrite state_after_app. reflexivity.
Qed.

Section BudgeterFacts.
Context {RT : PyRuntime}.

Lemma dumps_cons_grows : forall x l,
  grows (dumps_indent (JArr l)) (dumps_indent (JArr (x :: l))).
Proof.
  intros x l. unfold dumps_indent. cbn [dumps_at map]. apply frame_cons_grows.
Qed.

Lemma render_cons_grows : forall template x l,
  grows (render template l) (render template (x :: l)).
Proof.
  intros template x l. unfold render, replace.
  change HISTORY_PLACEHOLDER with (123%N :: tl HISTORY_PLACEHOLDER).
  cbv iota. apply replace_go_grows. apply dumps_cons_grows.
Qed.

(** Putting older items in front never lowers the estimate. *)
Lemma render_app_mono : forall template older l,
  (estimate_tokens (render template l)
   <= estimate_tokens (render template (older ++ l)))%Z.
Proof.
  intros template older l. apply estimate_tokens_grows.
  induction older as [|x older IH]; simpl; [apply grows_refl|].
  eapply grows_trans; [exact IH|apply render_cons_grows].
Qed.

End BudgeterFacts.

(** ** The context budgeter *)

Lemma minimal_prompt_raises : forall task tools_hints,
  minimal_prompt task tools_hints = Raise ValueError.
Proof.
  intros task tools_hints. unfold minimal_prompt.
  assert (E : format_str (u "action") (u " " ++ str_Ellipsis) = Raise ValueError)
    by (vm_compute; reflexivity).
  rewrite E. reflexivity.
Qed.

Section BudgeterProperties.
Context {RT : PyRuntime}.
Variables (ceiling : Z) (template : pystr).

(** What the loop over the reversed history leaves: the items [taken], in
    their original order, in front of the accumulator; the loop stopped at
    the end of the history or at an item that does not fit. *)
Lemma select_history_spec : forall newest_first acc,
  exists taken rest,
    newest_first = taken ++ rest /\
    select_history ceiling template newest_first acc = rev taken ++ acc /\
    (taken <> [] -> fits ceiling template (rev taken ++ acc)) /\
    (rest = [] \/
     exists item rest', rest = item :: rest' /\
       ~ fits ceiling template (item :: rev taken ++ acc)).
Proof.
  induction newest_first as [|item older IH]; intros acc.
  - exists [], []. repeat split; auto. intros H; now elim H.
  - simpl.
    destruct (estimate_tokens (render template (item :: acc)) <=? ceiling)%Z eqn:T.
    + destruct (IH (item :: acc)) as (taken & rest & E & S & F & Stop).
      exists (item :: taken), rest. simpl. rewrite <- app_assoc. simpl.
      repeat split.
      * now rewrite E.
      * exact S.
      * intros _. destruct taken as [|t taken'].
        -- simpl. apply Z.leb_le, T.
        -- apply F. discriminate.
      * exact Stop.
    + exists [], (item :: older). simpl. repeat split; auto.
      * intros H; now elim H.
      * right. exists item, older. split; [reflexivity|].
        unfold fits. apply Z.leb_gt in T. lia.
Qed.

End BudgeterProperties.

Section BudgeterTheorems.
Context {RT : PyRuntime}.

(** Whatever prompt the budgeter returns is estimated at or under the
    ceiling. *)
Lemma returned_prompt_within_ceiling :
  forall ceiling tools_hints task history prompt needs_reset items_to_keep,
  create_reasoning_prompt_at ceiling tools_hints task history
    = Ok (prompt, needs_reset, items_to_keep) ->
  (estimate_tokens prompt <= ceiling)%Z.
Proof.
  intros ceiling tools_hints task history prompt needs_reset items_to_keep.
  unfold create_reasoning_prompt_at.
  destruct (ceiling <? _)%Z eqn:T.
  - rewrite minimal_prompt_raises. discriminate.
  - intros H. injection H as <- _ _. apply Z.ltb_ge, T.
Qed.

(** C1, at the fall-back: when even the prompt with the empty history
    exceeds the ceiling, building the forced-minimal prompt raises
    [ValueError]; no prompt and no reset are returned. *)
Theorem forced_minimal_prompt_raises :
  forall ceiling tools_hints task history,
  ~ fits ceiling (base_prompt_template task tools_hints) [] ->
  create_reasoning_prompt_at ceiling tools_hints task history = Raise ValueError.
Proof.
  intros ceiling tools_hints task history Hbig.
  unfold create_reasoning_prompt_at.
  set (template := base_prompt_template task tools_hints) in *.
  destruct (select_history_spec ceiling template (rev history) [])
    as (taken & rest & _ & S & F & _).
  rewrite S.
  destruct taken as [|t taken'].
  - change (rev [] ++ []) with (@nil json).
    destruct (ceiling <? estimate_tokens (render template []))%Z eqn:T.
    + rewrite minimal_prompt_raises. reflexivity.
    + apply Z.ltb_ge in T. contradiction.
  - exfalso. apply Hbig. unfold fits in *.
    assert (Hfit := F ltac:(discriminate)).
    pose proof (render_app_mono template (rev (t :: taken')) []) as M.
    lia.
Qed.

End BudgeterTheorems.

(** Two ways of cutting one list: the longer tail extends the shorter. *)
Lemma longer_suffix_extends : forall (A : Type) (d i d' i' : list A),
  d ++ i = d' ++ i' -> length i < length i' ->
  exists e x, i' = e ++ x :: i /\ d = d' ++ e ++ [x].
Proof.
  intros A d i d' i' E L.
  destruct (app_eq_app _ _ _ _ E) as [l [[Hd Hi] | [Hd Hi]]].
  - destruct (exists_last (l := l)) as (e & x & ->).
    + intros ->. simpl in Hi. subst i'. lia.
    + exists e, x. subst. rewrite <- app_assoc. simpl. split; reflexivity.
  - subst i. rewrite length_app in L. lia.
Qed.

Section SuffixTheorem.
Context {RT : PyRuntime}.

(** C2: when the budgeter returns, the items in the prompt are a suffix of
    the history, in their original order, and the count returned with the
    prompt; the suffix fits, the item just before it (if any) was the first
    one refused, and no suffix that fits is longer. *)
Theorem budget_keeps_longest_fitting_suffix :
  forall ceiling tools_hints task history prompt needs_reset items_to_keep,
  create_reasoning_prompt_at ceiling tools_hints task history
    = Ok (prompt, needs_reset, items_to_keep) ->
  let template := base_prompt_template task tools_hints in
  exists dropped included,
    history = dropped ++ included /\
    included = select_history ceiling template (rev history) [] /\
    prompt = render template included /\
    items_to_keep = length included /\
    (needs_reset = true <-> dropped <> []) /\
    fits ceiling template included /\
    (forall older item, dropped = older ++ [item] ->
       ~ fits ceiling template (item :: included)) /\
    (forall dropped' included', history = dropped' ++ included' ->
       fits ceiling template included' -> length included' <= length included).
Proof.
  intros ceiling tools_hints task history prompt needs_reset items_to_keep H template.
  unfold create_reasoning_prompt_at in H. fold template in H.
  destruct (select_history_spec ceiling template (rev history) [])
    as (taken & rest & E & S & _ & Stop).
  rewrite app_nil_r in S. rewrite S in H.
  destruct (ceiling <? _)%Z eqn:T in H.
  { rewrite minimal_prompt_raises in H. discriminate H. }
  apply Z.ltb_ge in T.
  injection H as Hp Hn Hk.
  assert (Hh : history = rev rest ++ rev taken).
  { rewrite <- rev_app_distr, <- E, rev_involutive. reflexivity. }
  assert (Hstop : forall older item, rev rest = older ++ [item] ->
            ~ fits ceiling template (item :: rev taken)).
  { intros older item Hr. destruct Stop as [-> | (it & rest' & -> & Hno)].
    - destruct older; discriminate Hr.
    - simpl in Hr. apply app_inj_tail in Hr. destruct Hr as [_ <-].
      now rewrite app_nil_r in Hno. }
  assert (Hlen : length history = length (rev rest) + length (rev taken))
    by (rewrite Hh, length_app; reflexivity).
  exists (rev rest), (rev taken).
  split; [exact Hh|]. split; [now rewrite S|]. split; [now rewrite <- Hp|].
  split; [|split; [|split; [exact T|split; [exact Hstop|]]]].
  - subst items_to_keep needs_reset.
    destruct (length (rev taken) <? length history) eqn:L1;
      destruct (0 <? length history) eqn:L2; simpl; try reflexivity.
    + apply Nat.ltb_ge in L2. apply Nat.ltb_lt in L1. lia.
    + apply Nat.ltb_ge in L1. lia.
    + apply Nat.ltb_ge in L1. lia.
  - subst needs_reset. split.
    + intros Hb. apply andb_true_iff in Hb. destruct Hb as [L1 _].
      apply Nat.ltb_lt in L1. intros Hnil. rewrite Hnil in Hlen. simpl in Hlen. lia.
    + intros Hne. apply andb_true_iff.
      assert (0 < length (rev rest)).
      { destruct (rev rest); [now elim Hne|simpl; lia]. }
      split; [apply Nat.ltb_lt|apply Nat.ltb_lt]; lia.
  - intros dropped' included' Hcut Hfit.
    destruct (Nat.le_gt_cases (length included') (length (rev taken))) as [|Hlong];
      [assumption|exfalso].
    rewrite Hcut in Hh. symmetry in Hh.
    destruct (longer_suffix_extends _ _ _ _ Hh Hlong) as (e & x & -> & Hd).
    apply (Hstop (dropped' ++ e) x); [now rewrite <- app_assoc|].
    unfold fits in *.
    pose proof (render_app_mono template e (x :: rev taken)). lia.
Qed.

End SuffixTheorem.

(** ** Waiting for a response *)

Section WaitProperties.
Context {RT : PyRuntime}.

(** One turn of the loop of [_wait_for_response], by what was read. *)
Lemma wait_step : forall request_id p rest,
  _wait_for_response request_id (p :: rest) =
  match read_of p with
  | Skipped => _wait_for_response request_id rest
  | NotAnObject _ => Raise AttributeError
  | Message m =>
    if has_id m request_id then
      match dict_get m (u "error") with
      | Some _ => Ok (JObj [])
      | None =>
        Ok (match dict_get m (u "result") with Some r => r | None => JObj [] end)
      end
    else _wait_for_response request_id rest
  end.
Proof.
  intros request_id [line|] rest; simpl; [|reflexivity].
  destruct (json_loads line) as [[| | | | | |m]|]; try reflexivity.
  unfold id_is, has_id. simpl.
  destruct (match dict_get m (u "id") with Some x => py_eq_int x request_id | None => false end);
    [|reflexivity].
  destruct (dict_get m (u "error")); reflexivity.
Qed.

(** Lines that do not parse and empty reads are passed over, and so are
    messages with another id. *)
Lemma wait_passes_over : forall request_id skipped rest,
  Forall (passed_over request_id) skipped ->
  _wait_for_response request_id (skipped ++ rest) = _wait_for_response request_id rest.
Proof.
  intros request_id skipped rest H.
  induction H as [|p skipped Hp _ IH]; [reflexivity|].
  simpl app. rewrite wait_step. unfold passed_over in Hp.
  destruct (read_of p) as [|v|m]; [exact IH|contradiction|].
  rewrite Hp. exact IH.
Qed.

(** With no match before the deadline the result is the empty dict. *)
Lemma wait_times_out : forall request_id skipped,
  Forall (passed_over request_id) skipped ->
  _wait_for_response request_id skipped = Ok (JObj []).
Proof.
  intros request_id skipped H.
  rewrite <- (app_nil_r skipped). rewrite wait_passes_over by assumption. reflexivity.
Qed.

(** The first message with the awaited id decides, whatever is read after
    it: its result, or the empty dict when it carries an error. *)
Lemma wait_returns_on_match : forall request_id skipped p m rest,
  Forall (passed_over request_id) skipped ->
  read_of p = Message m -> has_id m request_id = true ->
  _wait_for_response request_id (skipped ++ p :: rest) =
  Ok (match dict_get m (u "error"), dict_get m (u "result") with
      | Some _, _ => JObj []
      | None, Some r => r
      | None, None => JObj []
      end).
Proof.
  intros request_id skipped p m rest H Hp Hid.
  rewrite wait_passes_over by assumption.
  rewrite wait_step, Hp, Hid.
  destruct (dict_get m (u "error")); [reflexivity|].
  destruct (dict_get m (u "result")); reflexivity.
Qed.

(** As long as every line that parses is an object the wait returns. *)
Lemma wait_returns_on_messages : forall request_id polls,
  Forall (fun p => forall v, read_of p <> NotAnObject v) polls ->
  exists r, _wait_for_response request_id polls = Ok r.
Proof.
  intros request_id polls H.
  induction H as [|p polls Hp _ IH]; [now exists (JObj [])|].
  rewrite wait_step.
  destruct (read_of p) as [|v|m]; [exact IH|now elim (Hp v)|].
  destruct (has_id m request_id); [|exact IH].
  destruct (dict_get m (u "error")); eauto.
Qed.

(** C6, where it fails: a line that is valid JSON but not an object (a
    number, a string, [null], a list) makes [response.get] raise
    [AttributeError], which the [except] clause does not catch. *)
Theorem wait_raises_on_non_object : forall request_id skipped p v rest,
  Forall (passed_over request_id) skipped ->
  read_of p = NotAnObject v ->
  _wait_for_response request_id (skipped ++ p :: rest) = Raise AttributeError.
Proof.
  intros request_id skipped p v rest H Hp.
  rewrite wait_passes_over by assumption.
  rewrite wait_step, Hp. reflexivity.
Qed.

End WaitProperties.

(** ** The handshake *)

Section HandshakeProperties.
Context {RT : PyRuntime}.

(** One turn of the handshake loop while it is not ready, by what was
    read. *)
Lemma handshake_step : forall init_id got tools p rest,
  got && truthy tools = false ->
  handshake_loop init_id got tools (p :: rest) =
  match classify init_id p with
  | Noise => handshake_loop init_id got tools rest
  | InitResponse =>
    if truthy tools then Ok tools else handshake_loop init_id true tools rest
  | ToolsReady t =>
    if got && truthy t then Ok t else handshake_loop init_id got t rest
  | Malformed => Raise AttributeError
  end.
Proof.
  intros init_id got tools [line|] rest Hnot; unfold classify, read_of; simpl;
    [|reflexivity].
  destruct (json_loads line) as [[| | | | | |m]|]; try reflexivity.
  unfold id_is, has_id, is_tools_ready. simpl.
  destruct (match dict_get m (u "id") with Some x => py_eq_int x init_id | None => false end).
  - simpl. reflexivity.
  - simpl.
    destruct (match dict_get m (u "method") with
              | Some x => py_eq_str x (u "tools_ready") | None => false end).
    + unfold py_get_default. simpl.
      destruct (dict_get m (u "params")) as [[| | | | | |pm]|]; try reflexivity.
    + rewrite Hnot. reflexivity.
Qed.

Lemma handshake_passes_noise : forall init_id got tools noise rest,
  got && truthy tools = false ->
  Forall (fun p => classify init_id p = Noise) noise ->
  handshake_loop init_id got tools (noise ++ rest)
  = handshake_loop init_id got tools rest.
Proof.
  intros init_id got tools noise rest Hnot H.
  induction H as [|p noise Hp _ IH]; [reflexivity|].
  simpl app. rewrite handshake_step by assumption. rewrite Hp. exact IH.
Qed.

(** Until both have been read the loop runs to its deadline. *)
Lemma handshake_times_out : forall init_id got tools noise,
  got && truthy tools = false ->
  Forall (fun p => classify init_id p = Noise) noise ->
  handshake_loop init_id got tools noise = Raise RuntimeError.
Proof.
  intros init_id got tools noise Hnot H.
  rewrite <- (app_nil_r noise). rewrite handshake_passes_noise by assumption.
  reflexivity.
Qed.

(** C7, amended: the loop leaves with the tool list once the response to
    [initialize] and a [tools_ready] notification with a non-empty tool list
    have both been read, whichever comes first, what is read in between
    being lines that are not JSON or other messages; having read only one
    of the two it runs to the deadline and raises.  On leaving, the
    [initialized] notification is sent after the [initialize] request. *)
Theorem handshake_ready_in_either_order :
  forall a init tools_ready tools before between rest,
  let init_id := request_id a in
  let started := _send_mcp_raw (next_request_id a) (initialize_request init_id) in
  Forall (fun p => classify init_id p = Noise) before ->
  Forall (fun p => classify init_id p = Noise) between ->
  classify init_id init = InitResponse ->
  classify init_id tools_ready = ToolsReady tools ->
  truthy tools = true ->
  _perform_handshake a (before ++ init :: between ++ tools_ready :: rest)
    = (_send_mcp_raw started initialized_notification, Ok tools) /\
  _perform_handshake a (before ++ tools_ready :: between ++ init :: rest)
    = (_send_mcp_raw started initialized_notification, Ok tools) /\
  _perform_handshake a (before ++ init :: between) = (started, Raise RuntimeError) /\
  _perform_handshake a (before ++ tools_ready :: between) = (started, Raise RuntimeError).
Proof.
  intros a init tools_ready tools before between rest init_id started
    Hbefore Hbetween Hinit Htools Htruthy.
  assert (L1 : handshake_loop init_id false (JArr [])
                 (before ++ init :: between ++ tools_ready :: rest) = Ok tools).
  { rewrite handshake_passes_noise by auto.
    rewrite handshake_step by reflexivity. rewrite Hinit. simpl.
    rewrite handshake_passes_noise by auto.
    rewrite handshake_step by reflexivity. rewrite Htools, Htruthy. reflexivity. }
  assert (L2 : handshake_loop init_id false (JArr [])
                 (before ++ tools_ready :: between ++ init :: rest) = Ok tools).
  { rewrite handshake_passes_noise by auto.
    rewrite handshake_step by reflexivity. rewrite Htools. simpl.
    rewrite handshake_passes_noise by auto.
    rewrite handshake_step by reflexivity. rewrite Hinit, Htruthy. reflexivity. }
  assert (L3 : handshake_loop init_id false (JArr []) (before ++ init :: between)
               = Raise RuntimeError).
  { rewrite handshake_passes_noise by auto.
    rewrite handshake_step by reflexivity. rewrite Hinit. simpl.
    apply handshake_times_out; auto. }
  assert (L4 : handshake_loop init_id false (JArr []) (before ++ tools_ready :: between)
               = Raise RuntimeError).
  { rewrite handshake_passes_noise by auto.
    rewrite handshake_step by reflexivity. rewrite Htools. simpl.
    apply handshake_times_out; auto. }
  unfold _perform_handshake. fold init_id. fold started.
  rewrite L1, L2, L3, L4. repeat split.
Qed.

End HandshakeProperties.

(** ** Correlation ids *)

Lemma request_ids_app : forall l1 l2,
  request_ids (l1 ++ l2) = request_ids l1 ++ request_ids l2.
Proof. intros l1 l2. unfold request_ids. apply flat_map_app. Qed.

Lemma first_ids_S : forall n, first_ids (S n) = first_ids n ++ [Z.of_nat (S n)].
Proof.
  intros n. unfold first_ids. rewrite seq_S, map_app. reflexivity.
Qed.

Lemma first_ids_bounds : forall n,
  Forall (fun i => 1 <= i <= Z.of_nat n)%Z (first_ids n).
Proof.
  intros n. unfold first_ids. apply Forall_forall. intros i Hi.
  apply in_map_iff in Hi. destruct Hi as (k & <- & Hk).
  apply in_seq in Hk. lia.
Qed.

Lemma first_ids_sorted : forall n, StronglySorted Z.lt (first_ids n).
Proof.
  induction n as [|n IH]; [constructor|].
  rewrite first_ids_S.
  assert (B := first_ids_bounds n).
  induction IH as [|i l _ IHl Hi]; simpl.
  - repeat constructor.
  - inversion B as [|? ? Bi Bl]; subst. constructor; [apply IHl, Bl|].
    apply Forall_app. split; [exact Hi|]. constructor; [lia|constructor].
Qed.

Lemma StronglySorted_lt_NoDup : forall l, StronglySorted Z.lt l -> NoDup l.
Proof.
  induction 1 as [|i l _ IH Hi]; constructor; [|exact IH].
  intros Hin. rewrite Forall_forall in Hi. specialize (Hi i Hin). lia.
Qed.

Section CorrelationIds.
Context {RT : PyRuntime}.

(** Taking the next id: the request written carries the value of the
    counter, and the counter moves on by one. *)
Lemma call_mcp_tool_id : forall a name arguments polls,
  let a' := fst (call_mcp_tool a name arguments polls) in
  request_id a' = (request_id a + 1)%Z /\
  stdin_open a' = stdin_open a /\
  sent a' = if stdin_open a
            then sent a ++ [tools_call_request (request_id a) name arguments]
            else sent a.
Proof.
  intros a name arguments polls. unfold call_mcp_tool, _send_mcp_raw. simpl.
  destruct (stdin_open a) eqn:E; simpl; rewrite ?E; auto.
Qed.

Lemma perform_handshake_id : forall a polls,
  let a' := fst (_perform_handshake a polls) in
  request_id a' = (request_id a + 1)%Z /\
  stdin_open a' = stdin_open a /\
  request_ids (sent a')
  = if stdin_open a then request_ids (sent a) ++ [request_id a]
    else request_ids (sent a).
Proof.
  intros a polls. unfold _perform_handshake, _send_mcp_raw.
  destruct (handshake_loop _ _ _ _); destruct (stdin_open a) eqn:E; simpl;
    rewrite ?E; simpl; rewrite ?E; simpl; rewrite ?request_ids_app; simpl;
    rewrite ?app_nil_r; auto.
Qed.

Lemma ids_invariant : forall a, reachable a ->
  (1 <= request_id a)%Z /\
  request_ids (sent a)
  = if stdin_open a then first_ids (Z.to_nat (request_id a - 1)) else [].
Proof.
  assert (Hnext : forall r, (1 <= r)%Z ->
            first_ids (Z.to_nat (r - 1)) ++ [r] = first_ids (Z.to_nat (r + 1 - 1))).
  { intros r Hr. replace (Z.to_nat (r + 1 - 1)) with (S (Z.to_nat (r - 1))) by lia.
    rewrite first_ids_S. f_equal. f_equal. lia. }
  induction 1 as [b | a polls _ [Hpos IH] | a name arguments polls _ [Hpos IH]].
  - simpl. split; [lia|]. destruct b; reflexivity.
  - destruct (perform_handshake_id a polls) as (Hr & Ho & Hs).
    rewrite Hr, Ho, Hs. split; [lia|].
    destruct (stdin_open a); [|exact IH]. rewrite IH. now apply Hnext.
  - destruct (call_mcp_tool_id a name arguments polls) as (Hr & Ho & Hs).
    rewrite Hr, Ho, Hs. split; [lia|].
    destruct (stdin_open a); [|exact IH].
    rewrite request_ids_app, IH. now apply Hnext.
Qed.

(** C9: the ids of the requests written are 1, 2, 3, ... in the order of
    sending: increasing, positive, none used twice, and all below the
    counter, whose value is the id the next request takes. *)
Theorem request_ids_count_up : forall a, reachable a ->
  exists n,
    request_ids (sent a) = first_ids n /\
    (Z.of_nat n < request_id a)%Z /\
    StronglySorted Z.lt (request_ids (sent a)) /\
    NoDup (request_ids (sent a)) /\
    Forall (fun i => 1 <= i < request_id a)%Z (request_ids (sent a)) /\
    forall name arguments polls,
      let a' := fst (call_mcp_tool a name arguments polls) in
      request_id a' = (request_id a + 1)%Z /\
      request_ids (sent a')
      = if stdin_open a then request_ids (sent a) ++ [request_id a]
        else request_ids (sent a).
Proof.
  intros a Ha. destruct (ids_invariant Ha) as [Hpos Hids].
  exists (if stdin_open a then Z.to_nat (request_id a - 1) else 0).
  assert (E : request_ids (sent a)
              = first_ids (if stdin_open a then Z.to_nat (request_id a - 1) else 0))
    by (rewrite Hids; destruct (stdin_open a); reflexivity).
  split; [exact E|]. split; [destruct (stdin_open a); lia|].
  rewrite E. split; [apply first_ids_sorted|].
  split; [apply StronglySorted_lt_NoDup, first_ids_sorted|]. split.
  - eapply Forall_impl; [|apply first_ids_bounds].
    simpl. intros i Hi. destruct (stdin_open a); lia.
  - intros name arguments polls a'.
    destruct (call_mcp_tool_id a name arguments polls) as (Hr & _ & Hs).
    split; [exact Hr|]. fold a' in Hs. rewrite Hs, <- E.
    destruct (stdin_open a); [|reflexivity].
    rewrite request_ids_app. reflexivity.
Qed.

End CorrelationIds.

(** ** The reasoning loop *)

Section LoopProperties.
Context {RT : PyRuntime}.

(** The top of the cycle leaves the agent and the file alone. *)
Lemma begin_cycle_keeps : forall env st prompt st2,
  begin_cycle env st = Ok (prompt, st2) ->
  transport st2 = transport st /\ history_file st2 = history_file st.
Proof.
  intros env st prompt st2. unfold begin_cycle, after_pause.
  destruct (paused env) as [[content|]|];
    try destruct (PyStr.eqb (strip content) (task st));
    (destruct (_create_reasoning_prompt _ _) as [[[p nr] k]|e]; simpl;
     [destruct nr; intros H; injection H as _ <-; split; reflexivity
     |discriminate]).
Qed.

(** C4, where it fails: a response in which neither search finds a match
    puts one [reasoning_error] item at the end of the history and goes to
    the next cycle through [continue]; the step counter stays as it is and
    nothing is written to [history.json]. *)
Theorem no_json_appends_error_without_step : forall env st prompt st2,
  begin_cycle env st = Ok (prompt, st2) ->
  search_fenced (response_text env) = None ->
  search_braces (response_text env) = None ->
  exists st',
    run_cycle env st = Continue st' /\
    history st' = history st2 ++ [reasoning_error_item (response_text env)] /\
    step st' = step st2 /\
    history_file st' = history_file st2.
Proof.
  intros env st prompt st2 Hb Hf Hs.
  exists (append st2 (reasoning_error_item (response_text env))).
  unfold run_cycle, parse_action. rewrite Hb, Hf, Hs. repeat split.
Qed.

Lemma bare_envelope_cut :
  search_fenced envelope_response = None /\
  search_braces envelope_response = Some envelope_cut /\
  json_loads envelope_cut = None.
Proof. repeat split; vm_compute; reflexivity. Qed.

(** C5, where it fails: on the bare envelope of the specification's example
    the lazy search stops at the first closing brace, the text cut out is
    not JSON, and the cycle records a [parsing_error]; nothing is sent to
    the child. *)
Theorem bare_envelope_is_not_dispatched : forall env st prompt st2,
  begin_cycle env st = Ok (prompt, st2) ->
  response_text env = envelope_response ->
  exists st',
    run_cycle env st = Continue st' /\
    history st' = history st2
                  ++ [parsing_error_item envelope_response
                        (decode_error_message envelope_cut)] /\
    transport st' = transport st.
Proof.
  intros env st prompt st2 Hb Hr.
  destruct bare_envelope_cut as (Hf & Hs & Hl).
  destruct (begin_cycle_keeps _ _ Hb) as [Ht _].
  exists (append st2 (parsing_error_item envelope_response
                        (decode_error_message envelope_cut))).
  unfold run_cycle, parse_action. rewrite Hb, Hr, Hf, Hs, Hl.
  repeat split. exact Ht.
Qed.

(** Inside a fence tagged json the whole envelope is matched, unwrapped
    and dispatched as a call of the tool [messages]. *)
Lemma fenced_envelope_is_unwrapped :
  parse_action fenced_envelope_response
  = Ok (ToolCall (JStr (u "messages")) get_unread_messages_arguments).
Proof. vm_compute. reflexivity. Qed.

(** The fenced block is preferred to an object that comes before it. *)
Lemma fenced_block_is_preferred :
  parse_action (lit "{'tool': 'first'} then ```json {'tool': 'second'} ```")
  = Ok (ToolCall (JStr (u "second")) (JObj [])).
Proof. vm_compute. reflexivity. Qed.

(** Without a fence the first object is taken, as long as it holds no
    object of its own. *)
Lemma first_flat_object_is_taken :
  parse_action (lit "I will call {'tool': 'first'} and then {'tool': 'second'}")
  = Ok (ToolCall (JStr (u "first")) (JObj [])).
Proof. vm_compute. reflexivity. Qed.

End LoopProperties.

Section PersistenceProperties.
Context {RT : PyRuntime}.


(** The cycles that end without a tool call append one item and do not
    touch the file. *)
Lemma other_paths_do_not_save : forall env st prompt st2 st',
  begin_cycle env st = Ok (prompt, st2) ->
  run_cycle env st = Continue st' ->
  (forall tool_name tool_args,
     parse_action (response_text env) <> Ok (ToolCall tool_name tool_args)) ->
  history_file st' = history_file st /\
  exists item, history st' = history st2 ++ [item].
Proof.
  intros env st prompt st2 st' Hb Hrun Hother.
  destruct (begin_cycle_keeps _ _ Hb) as [_ Hfile].
  unfold run_cycle in Hrun. rewrite Hb in Hrun.
  destruct (parse_action (response_text env)) as [[|message|answer|n a]|e].
  - injection Hrun as <-. simpl. split; [exact Hfile|eauto].
  - injection Hrun as <-. simpl. split; [exact Hfile|eauto].
  - destruct (py_eq_str answer final_answer_sentinel); [discriminate|].
    injection Hrun as <-. simpl. split; [exact Hfile|eauto].
  - now elim (Hother n a).
  - discriminate.
Qed.

End PersistenceProperties.

Section LearningProperties.
Context {RT : PyRuntime}.

Lemma collect_text_raises : forall items e,
  collect_text items = Raise e -> e = TypeError \/ e = AttributeError.
Proof.
  induction items as [|item rest IH]; intros e H; simpl in H; [discriminate|].
  destruct item as [| | | | s | l | m]; simpl in H;
    try (injection H as <-; now left).
  - destruct (is_infix_go (u "text") s); [injection H as <-; now right|auto].
  - destruct (existsb _ l); [injection H as <-; now right|auto].
  - destruct (dict_get m (u "text")); [|auto]. simpl in H.
    destruct (collect_text rest) eqn:E; [discriminate|].
    simpl in H. injection H as <-. auto.
Qed.

Lemma collect_text_finds : forall items,
  Exists (fun item => exists im v, item = JObj im /\ dict_get im (u "text") = Some v) items ->
  forall cs, collect_text items = Ok cs -> cs <> [].
Proof.
  induction 1 as [item rest (im & v & -> & Hv) | item rest _ IH]; intros cs H; simpl in H.
  - rewrite Hv in H. simpl in H. destruct (collect_text rest); [|discriminate].
    simpl in H. injection H as <-. discriminate.
  - destruct item as [| | | | s | l | m]; simpl in H; try discriminate.
    + destruct (is_infix_go (u "text") s); [discriminate|auto].
    + destruct (existsb _ l); [discriminate|auto].
    + destruct (dict_get m (u "text")); [|auto]. simpl in H.
      destruct (collect_text rest); [|discriminate].
      simpl in H. injection H as <-. discriminate.
Qed.

Lemma collect_text_objects : forall items,
  Forall (fun item => is_dict item = true) items ->
  exists cs, collect_text items = Ok cs.
Proof.
  induction 1 as [|item rest Hd _ [cs IH]]; [now exists []|].
  destruct item; try discriminate Hd. simpl.
  destruct (dict_get m (u "text")); simpl; rewrite IH; simpl; eauto.
Qed.

(** The "learning" branch on such a reply never comes back: collecting the
    texts raises, or the texts are there and [self.knowledge] raises. *)
Lemma learn_capabilities_raises : forall tool_args tool_result items,
  capabilities_reply tool_args tool_result items ->
  exists e,
    learn_capabilities tool_args tool_result = Raise e /\
    (e = AttributeError \/ e = TypeError) /\
    (Forall (fun item => is_dict item = true) items -> e = AttributeError).
Proof.
  intros tool_args tool_result items
    ((am & v & -> & Hm & Hv) & (rm & -> & Herr & Hc) & Hex).
  unfold learn_capabilities. simpl. rewrite Hm, Hv. simpl.
  assert (Hne : match rm with [] => false | _ :: _ => true end = true)
    by (destruct rm; [discriminate Hc|reflexivity]).
  rewrite Hne. simpl. rewrite Herr, Hc. simpl.
  destruct (collect_text items) as [cs|e] eqn:E; simpl.
  - pose proof (collect_text_finds Hex E) as Hcs.
    destruct cs; [now elim Hcs|]. exists AttributeError. auto.
  - exists e. split; [reflexivity|]. split.
    + destruct (collect_text_raises _ E); auto.
    + intros Hall. destruct (collect_text_objects Hall) as [cs Hcs]. congruence.
Qed.

(** C10, amended: on such a reply the cycle ends with an exception leaving
    [run], the record of the call is not appended and nothing is saved.
    The exception is an [AttributeError] when every item of [content] is an
    object; an item that is a number, a boolean or [null] makes the
    membership test raise [TypeError] first. *)
Theorem capabilities_reply_ends_run :
  forall env st prompt st2 tool_name tool_args tool_result items,
  begin_cycle env st = Ok (prompt, st2) ->
  parse_action (response_text env) = Ok (ToolCall tool_name tool_args) ->
  _wait_for_response (request_id (transport st2)) (polls env) = Ok tool_result ->
  capabilities_reply tool_args tool_result items ->
  exists e st3,
    run_cycle env st = Crashed e st3 /\
    history st3 = history st2 /\
    history_file st3 = history_file st /\
    (e = AttributeError \/ e = TypeError) /\
    (Forall (fun item => is_dict item = true) items -> e = AttributeError).
Proof.
  intros env st prompt st2 tool_name tool_args tool_result items Hb Hp Hw Hreply.
  destruct (begin_cycle_keeps _ _ Hb) as [_ Hfile].
  destruct (learn_capabilities_raises Hreply) as (e & Hl & He & Hall).
  exists e. eexists.
  unfold run_cycle. rewrite Hb, Hp. unfold call_mcp_tool. rewrite Hw, Hl.
  repeat split; auto.
Qed.

End LearningProperties.

(** ** The scanner has fuel enough

    Every call made with the fuel [json_loads] gives ends in a value or in
    an error of the input, and what it leaves unread is shorter than what
    it was given. *)

Lemma skip_ws_length : forall s, length (skip_ws s) <= length s.
Proof.
  induction s as [|c r IH]; simpl; [lia|].
  destruct (json_ws c); simpl; lia.
Qed.

Lemma strip_prefix_length : forall p s r,
  strip_prefix p s = Some r -> length s = length p + length r.
Proof.
  induction p as [|x p IH]; intros s r H; simpl in H.
  - injection H as <-. reflexivity.
  - destruct s as [|y s]; [discriminate|].
    destruct (x =? y)%N; [|discriminate]. simpl. rewrite (IH _ _ H). reflexivity.
Qed.

Lemma take_digits_length : forall s acc ds r,
  take_digits s acc = (ds, r) -> length r <= length s.
Proof.
  induction s as [|c s IH]; intros acc ds r H; simpl in H.
  - injection H as _ <-. simpl. lia.
  - destruct (is_digit c).
    + apply IH in H. simpl. lia.
    + injection H as _ <-. lia.
Qed.

Lemma scanstring_length : forall n s acc str r,
  length s <= n -> scanstring s acc = Some (str, r) -> length r < length s.
Proof.
  induction n as [|n IH]; intros s acc str r Hn H;
    destruct s as [|c s]; simpl in *; try discriminate; try lia.
  destruct (c =? 34)%N; [injection H as _ <-; lia|].
  destruct (c =? 92)%N.
  - destruct s as [|e r1]; [discriminate|].
    destruct (e =? 117)%N.
    + destruct r1 as [|h1 [|h2 [|h3 [|h4 r2]]]]; try discriminate.
      destruct (hex4 h1 h2 h3 h4) as [c1|]; [|discriminate].
      destruct r2 as [|b [|l [|g1 [|g2 [|g3 [|g4 r3]]]]]];
        try (apply IH in H; simpl in *; lia).
      destruct (if is_high_surrogate c1 then _ else None) as [[c2 ?]|];
        apply IH in H; simpl in *; lia.
    + destruct (unescape e); [|discriminate].
      apply IH in H; simpl in *; lia.
  - destruct (c <? 32)%N; [discriminate|].
    apply IH in H; simpl in *; lia.
Qed.

Lemma match_number_length : forall s v r,
  match_number s = Some (v, r) -> length r < length s.
Proof.
  intros s v r H. unfold match_number in H.
  destruct (match_integer s) as [[[neg ds] r0]|] eqn:Ei; [|discriminate].
  assert (L0 : length r0 < length s).
  { unfold match_integer in Ei.
    destruct s as [|c s']; [discriminate|].
    destruct (c =? 45)%N.
    - destruct s' as [|d s'']; [discriminate|].
      destruct (d =? 48)%N; [injection Ei as _ _ <-; simpl; lia|].
      destruct (is_digit d); [|discriminate].
      destruct (take_digits s'' []) as [ds' r'] eqn:Et.
      injection Ei as _ _ <-. apply take_digits_length in Et. simpl. lia.
    - destruct (c =? 48)%N; [injection Ei as _ _ <-; simpl; lia|].
      destruct (is_digit c); [|discriminate].
      destruct (take_digits s' []) as [ds' r'] eqn:Et.
      injection Ei as _ _ <-. apply take_digits_length in Et. simpl. lia. }
  destruct (match_frac r0) as [frac r1] eqn:Ef.
  assert (L1 : length r1 <= length r0).
  { unfold match_frac in Ef.
    destruct r0 as [|p [|d r0']]; try (injection Ef as _ <-; simpl; lia).
    destruct ((p =? 46)%N && is_digit d); [|injection Ef as _ <-; simpl; lia].
    destruct (take_digits r0' []) as [ds' r'] eqn:Et.
    injection Ef as _ <-. apply take_digits_length in Et. simpl. lia. }
  destruct (match_exp r1) as [exp r2] eqn:Ee.
  assert (L2 : length r2 <= length r1).
  { unfold match_exp in Ee.
    destruct r1 as [|e r1']; [injection Ee as _ <-; simpl; lia|].
    destruct ((e =? 101)%N || (e =? 69)%N); [|injection Ee as _ <-; simpl; lia].
    destruct (match r1' with
              | [] => ([], r1')
              | c :: r' => if ((c =? 43)%N || (c =? 45)%N) then ([c], r') else ([], r1')
              end) as [sign r1''] eqn:Es.
    assert (length r1'' <= length r1').
    { destruct r1' as [|c r']; [injection Es as _ <-; lia|].
      destruct ((c =? 43)%N || (c =? 45)%N); injection Es as _ <-; simpl; lia. }
    destruct (take_digits r1'' []) as [[|d ds'] r'] eqn:Et.
    - injection Ee as _ <-. simpl. lia.
    - injection Ee as _ <-. apply take_digits_length in Et. simpl. lia. }
  destruct (is_empty frac && is_empty exp); injection H as _ <-; lia.
Qed.

Lemma keyword_consumed : forall k v c s,
  k <> [] -> consumed (keyword k v (c :: s)) (c :: s).
Proof.
  intros k v c s Hk. unfold keyword.
  destruct (strip_prefix k (c :: s)) as [r|] eqn:E; simpl; [|exact I].
  apply strip_prefix_length in E. destruct k; [now elim Hk|]. simpl in *. lia.
Qed.

Lemma scan_fuel : forall fuel,
  (forall s, 2 * length s + 1 <= fuel -> consumed (scan_once fuel s) s) /\
  (forall s acc, 2 * length s + 1 <= fuel -> consumed (parse_pairs fuel s acc) s) /\
  (forall s acc, 2 * length s + 2 <= fuel -> consumed (parse_elems fuel s acc) s).
Proof.
  induction fuel as [|f (IHscan & IHpairs & IHelems)].
  { repeat split; intros; lia. }
  split; [|split].
  - intros s Hf. destruct s as [|c r]; cbn [scan_once]; [exact I|].
    simpl in Hf.
    destruct (c =? 34)%N.
    { destruct (scanstring r []) as [[str r']|] eqn:E; simpl; [|exact I].
      apply scanstring_length with (n := length r) in E; lia. }
    destruct (c =? 123)%N.
    { pose proof (skip_ws_length r) as Hw.
      destruct (skip_ws r) as [|d r'] eqn:E; simpl; [exact I|].
      simpl in Hw.
      destruct (d =? 125)%N; [simpl; lia|].
      destruct (d =? 34)%N; [|exact I].
      specialize (IHpairs r' [] ltac:(lia)).
      destruct (parse_pairs f r' []); simpl in *; auto; lia. }
    destruct (c =? 91)%N.
    { pose proof (skip_ws_length r) as Hw.
      destruct (skip_ws r) as [|d r'] eqn:E; [exact I|].
      simpl in Hw.
      destruct (d =? 93)%N; [simpl; lia|].
      specialize (IHelems (d :: r') [] ltac:(simpl; lia)).
      destruct (parse_elems f (d :: r') []); simpl in *; auto; lia. }
    destruct (c =? 110)%N; [apply keyword_consumed; discriminate|].
    destruct (c =? 116)%N; [apply keyword_consumed; discriminate|].
    destruct (c =? 102)%N; [apply keyword_consumed; discriminate|].
    destruct (c =? 78)%N; [apply keyword_consumed; discriminate|].
    destruct (c =? 73)%N; [apply keyword_consumed; discriminate|].
    destruct (strip_prefix (u "-Infinity") (c :: r)) as [r'|] eqn:E.
    { apply strip_prefix_length in E.
      change (length (u "-Infinity")) with 9 in E. unfold consumed. lia. }
    destruct (match_number (c :: r)) as [[v r']|] eqn:En; simpl; [|exact I].
    apply match_number_length in En. simpl in En. lia.
  - intros s acc Hf. simpl.
    destruct (scanstring s []) as [[key s1]|] eqn:E; [|exact I].
    apply scanstring_length with (n := length s) in E; [|lia].
    pose proof (skip_ws_length s1) as Hw1.
    destruct (skip_ws s1) as [|c s2]; [exact I|]. simpl in Hw1.
    destruct (c =? 58)%N; [|exact I].
    pose proof (skip_ws_length s2) as Hw2.
    specialize (IHscan (skip_ws s2) ltac:(lia)).
    destruct (scan_once f (skip_ws s2)) as [v s3| |]; simpl in IHscan; auto.
    pose proof (skip_ws_length s3) as Hw3.
    destruct (skip_ws s3) as [|d s4]; [exact I|]. simpl in Hw3.
    destruct (d =? 125)%N; [simpl; lia|].
    destruct (d =? 44)%N; [|exact I].
    pose proof (skip_ws_length s4) as Hw4.
    destruct (skip_ws s4) as [|q s5]; [exact I|]. simpl in Hw4.
    destruct (q =? 34)%N; [|exact I].
    specialize (IHpairs s5 (dict_set acc key v) ltac:(lia)).
    destruct (parse_pairs f s5 (dict_set acc key v)); simpl in *; auto; lia.
  - intros s acc Hf. simpl.
    specialize (IHscan s ltac:(lia)).
    destruct (scan_once f s) as [v s1| |]; simpl in IHscan; auto.
    pose proof (skip_ws_length s1) as Hw1.
    destruct (skip_ws s1) as [|d s2]; [exact I|]. simpl in Hw1.
    destruct (d =? 93)%N; [simpl; lia|].
    destruct (d =? 44)%N; [|exact I].
    pose proof (skip_ws_length s2) as Hw2.
    specialize (IHelems (skip_ws s2) (v :: acc) ltac:(lia)).
    destruct (parse_elems f (skip_ws s2) (v :: acc)); simpl in *; auto; lia.
Qed.

(** [json.loads] decides on its input alone: it returns a value exactly
    when the scanner read one and only blanks follow, and a [None] is an
    error of the input, never a lack of fuel. *)
Lemma json_loads_fuel : forall s,
  scan_once (loads_fuel s) (skip_ws s) <> OutOfFuel.
Proof.
  intros s H.
  destruct (scan_fuel (loads_fuel s)) as (Hscan & _ & _).
  pose proof (skip_ws_length s).
  specialize (Hscan (skip_ws s) ltac:(unfold loads_fuel; lia)).
  rewrite H in Hscan. exact Hscan.
Qed.

(** * Further properties *)

(** ** The token heuristic on joined and blank text *)

Lemma starts_mono_state : forall s, starts true s <= starts false s <= S (starts true s).
Proof.
  induction s as [|c r IH]; simpl; [lia|].
  destruct (is_space c); simpl; lia.
Qed.

Lemma starts_none : forall s,
  starts false s = 0 <-> forallb is_space s = true.
Proof.
  induction s as [|c r IH]; simpl; [tauto|].
  destruct (is_space c); simpl; [exact IH|].
  split; [lia|discriminate].
Qed.

(** X1: text never gets a lower estimate by being continued or preceded:
    the estimate of a concatenation is at least the estimate of each
    part. *)
Theorem estimate_tokens_concat : forall a b,
  (estimate_tokens a <= estimate_tokens (a ++ b))%Z /\
  (estimate_tokens b <= estimate_tokens (a ++ b))%Z.
Proof.
  intros a b. unfold estimate_tokens. rewrite !split_length.
  rewrite starts_app, length_app.
  pose proof (starts_mono_state b) as Hb.
  assert (Ha : forall inw, starts inw b <= starts (state_after false a) b
                           \/ starts (state_after false a) b <= starts inw b) by (intros; lia).
  assert (D1 : (Z.of_nat (length a) / 4 <= Z.of_nat (length a + length b) / 4)%Z)
    by (apply Z.div_le_mono; lia).
  assert (D2 : (Z.of_nat (length b) / 4 <= Z.of_nat (length a + length b) / 4)%Z)
    by (apply Z.div_le_mono; lia).
  assert (W : starts false b <= starts false a + starts (state_after false a) b).
  { destruct (state_after false a) eqn:E; [|lia].
    destruct a as [|c a']; [discriminate E|].
    assert (1 <= starts false (c :: a')).
    { clear - E. revert E. generalize (c :: a') as s.
      induction s as [|x s IH]; simpl; [discriminate|].
      destruct (is_space x) eqn:Ex; simpl; [exact IH|lia]. }
    lia. }
  split; lia.
Qed.

(** X2: the estimate is zero exactly for text of fewer than four
    characters, all of them blank (the empty string among them). *)
Theorem estimate_tokens_zero : forall s,
  estimate_tokens s = 0%Z <-> length s < 4 /\ forallb is_space s = true.
Proof.
  intros s. unfold estimate_tokens. rewrite split_length, <- starts_none.
  assert (D : (Z.of_nat (length s) / 4 = 0)%Z <-> length s < 4).
  { split; intros H.
    - apply Z.div_small_iff in H; lia.
    - apply Z.div_small; lia. }
  pose proof (Z.div_pos (Z.of_nat (length s)) 4 ltac:(lia) ltac:(lia)).
  split.
  - intros H0. split; [apply D|]; lia.
  - intros [L W]. apply D in L. lia.
Qed.

(** ** The budgeter and the loop that calls it *)

Section BudgeterFurther.
Context {RT : PyRuntime}.

(** A history that fits as a whole is taken as a whole. *)
Lemma select_history_all : forall ceiling template history,
  fits ceiling template history ->
  select_history ceiling template (rev history) [] = history.
Proof.
  intros ceiling template history Hfit.
  destruct (select_history_spec ceiling template (rev history) [])
    as (taken & rest & E & S & _ & Stop).
  rewrite app_nil_r in S. rewrite S.
  assert (Hh : history = rev rest ++ rev taken)
    by (rewrite <- rev_app_distr, <- E, rev_involutive; reflexivity).
  destruct Stop as [-> | (item & rest' & -> & Hno)].
  - now rewrite Hh.
  - exfalso. apply Hno. rewrite app_nil_r. unfold fits in *.
    rewrite Hh in Hfit. simpl in Hfit. rewrite <- app_assoc in Hfit. simpl in Hfit.
    pose proof (render_app_mono template (rev rest') (item :: rev taken)). lia.
Qed.

Lemma create_reasoning_prompt_whole : forall ceiling tools_hints task history,
  fits ceiling (base_prompt_template task tools_hints) history ->
  create_reasoning_prompt_at ceiling tools_hints task history
  = Ok (render (base_prompt_template task tools_hints) history, false, length history).
Proof.
  intros ceiling tools_hints task history Hfit.
  unfold create_reasoning_prompt_at.
  rewrite select_history_all by assumption.
  unfold fits in Hfit. apply Z.ltb_ge in Hfit. rewrite Hfit.
  rewrite Nat.ltb_irrefl. reflexivity.
Qed.

(** X3: a reset is asked for exactly when the history as a whole does not
    fit; without one the prompt holds the whole history and the count
    returned is its length. *)
Theorem reset_iff_history_does_not_fit :
  forall ceiling tools_hints task history prompt needs_reset items_to_keep,
  create_reasoning_prompt_at ceiling tools_hints task history
    = Ok (prompt, needs_reset, items_to_keep) ->
  let template := base_prompt_template task tools_hints in
  (needs_reset = true <-> ~ fits ceiling template history) /\
  (needs_reset = false ->
   prompt = render template history /\ items_to_keep = length history).
Proof.
  intros ceiling tools_hints task history prompt needs_reset items_to_keep H template.
  destruct (Z.le_gt_cases (estimate_tokens (render template history)) ceiling)
    as [Hfit | Hbig].
  - rewrite create_reasoning_prompt_whole in H by exact Hfit.
    injection H as <- <- <-. split; [|auto].
    split; [discriminate|]. intros Hno. now elim Hno.
  - assert (Hno : ~ fits ceiling template history) by (unfold fits; lia).
    assert (needs_reset = true).
    { unfold create_reasoning_prompt_at in H. fold template in H.
      destruct (select_history_spec ceiling template (rev history) [])
        as (taken & rest & E & S & _ & _).
      rewrite app_nil_r in S. rewrite S in H.
      destruct (ceiling <? _)%Z eqn:T in H.
      { rewrite minimal_prompt_raises in H. discriminate H. }
      apply Z.ltb_ge in T. injection H as _ Hn _. rewrite <- Hn.
      assert (Hh : history = rev rest ++ rev taken)
        by (rewrite <- rev_app_distr, <- E, rev_involutive; reflexivity).
      destruct rest as [|item rest'].
      - exfalso. apply Hno. unfold fits. now rewrite Hh.
      - assert (Hl : length history = length (rev (item :: rest') ++ rev taken))
          by (rewrite <- Hh; reflexivity).
        rewrite Hl, length_app. simpl. rewrite length_app. simpl.
        apply andb_true_iff. split; apply Nat.ltb_lt; lia. }
    subst needs_reset. split; [tauto|discriminate].
Qed.





End BudgeterFurther.

(** ** The handshake, whatever is read *)

Section HandshakeFurther.
Context {RT : PyRuntime}.

Lemma classify_init : forall init_id p,
  classify init_id p = InitResponse ->
  exists m, read_of p = Message m /\ has_id m init_id = true.
Proof.
  intros init_id p. unfold classify.
  destruct (read_of p) as [|v|m]; try discriminate.
  destruct (has_id m init_id) eqn:E; [eauto|].
  destruct (is_tools_ready m); [|discriminate].
  destruct (dict_get m (u "params")) as [[| | | | | |pm]|]; discriminate.
Qed.

Lemma classify_tools : forall init_id p tools,
  classify init_id p = ToolsReady tools ->
  exists m, read_of p = Message m /\ is_tools_ready m = true.
Proof.
  intros init_id p tools. unfold classify.
  destruct (read_of p) as [|v|m]; try discriminate.
  destruct (has_id m init_id); [discriminate|].
  destruct (is_tools_ready m) eqn:E; [eauto|discriminate].
Qed.

Lemma handshake_loop_sound : forall init_id polls got tools0 tools,
  got && truthy tools0 = false ->
  handshake_loop init_id got tools0 polls = Ok tools ->
  truthy tools = true /\
  (got = true \/ observed_init init_id polls) /\
  (tools = tools0 \/ observed_tools_ready polls).
Proof.
  intros init_id polls. induction polls as [|p rest IH]; intros got tools0 tools Hnot H.
  - discriminate H.
  - rewrite handshake_step in H by exact Hnot.
    destruct (classify init_id p) as [| |t|] eqn:C.
    + destruct (IH _ _ _ Hnot H) as (Ht & Hi & Hr).
      split; [exact Ht|]. split.
      * destruct Hi; [now left|right; now apply Exists_cons_tl].
      * destruct Hr; [now left|right; now apply Exists_cons_tl].
    + assert (Hseen : observed_init init_id (p :: rest))
        by (apply Exists_cons_hd, (classify_init _ _ C)).
      destruct (truthy tools0) eqn:T0.
      * injection H as <-. auto.
      * destruct (IH true tools0 tools ltac:(now rewrite T0) H) as (Ht & _ & Hr).
        split; [exact Ht|]. split; [now right|].
        destruct Hr; [now left|right; now apply Exists_cons_tl].
    + assert (Hseen : observed_tools_ready (p :: rest))
        by (apply Exists_cons_hd, (classify_tools _ _ C)).
      destruct (got && truthy t) eqn:G.
      * injection H as <-. apply andb_true_iff in G. destruct G as [G1 G2].
        auto.
      * destruct (IH got t tools G H) as (Ht & Hi & _).
        split; [exact Ht|]. split; [|now right].
        destruct Hi; [now left|right; now apply Exists_cons_tl].
    + discriminate H.
Qed.

(** X6: the handshake returns only when it is ready: a tool list that
    [_perform_handshake] returns is non-empty, the response to the
    [initialize] request was among the lines read and so was a [tools_ready]
    notification, and the [initialized] notification is the last thing
    written. *)
Theorem handshake_returns_only_when_ready : forall a polls a' tools,
  _perform_handshake a polls = (a', Ok tools) ->
  truthy tools = true /\
  observed_init (request_id a) polls /\
  observed_tools_ready polls /\
  request_id a' = (request_id a + 1)%Z /\
  (stdin_open a = true ->
   sent a' = sent a ++ [initialize_request (request_id a); initialized_notification]).
Proof.
  intros a polls a' tools H. unfold _perform_handshake in H.
  destruct (handshake_loop (request_id a) false (JArr []) polls) as [t|e] eqn:L;
    [|discriminate].
  injection H as <- <-.
  destruct (@handshake_loop_sound _ polls false (JArr []) t eq_refl L) as (Ht & Hi & Hr).
  split; [exact Ht|]. split; [destruct Hi; [discriminate|assumption]|].
  split.
  - destruct Hr as [->|]; [discriminate Ht|assumption].
  - unfold _send_mcp_raw. simpl. split.
    + destruct (stdin_open a) eqn:E; simpl; rewrite ?E; reflexivity.
    + intros E. rewrite E. simpl. rewrite ?E. simpl. rewrite <- app_assoc. reflexivity.
Qed.

(** X7: a line that is JSON but not an object, or a [tools_ready] whose
    [params] is not an object, ends the handshake at once with an
    [AttributeError]: the wait is not carried on to the deadline, and no
    [initialized] notification is written. *)
Theorem handshake_raises_on_malformed : forall a before p rest,
  Forall (fun q => classify (request_id a) q = Noise) before ->
  classify (request_id a) p = Malformed ->
  _perform_handshake a (before ++ p :: rest)
  = (_send_mcp_raw (next_request_id a) (initialize_request (request_id a)),
     Raise AttributeError).
Proof.
  intros a before p rest Hb Hp. unfold _perform_handshake.
  rewrite handshake_passes_noise by auto.
  rewrite handshake_step by reflexivity. rewrite Hp. reflexivity.
Qed.

End HandshakeFurther.

(** ** The backend call *)

Lemma attempts_from_spec : forall outcome retries_left attempt,
  (forall n, n < retries_left ->
     (forall i, i < n -> outcome (attempt + i) = RequestFailed) ->
     outcome (attempt + n) <> RequestFailed ->
     attempts_from outcome attempt retries_left
     = match outcome (attempt + n) with
       | Body body => read_body body
       | _ => []
       end) /\
  ((forall i, i < retries_left -> outcome (attempt + i) = RequestFailed) ->
   attempts_from outcome attempt retries_left = []).
Proof.
  intros outcome. induction retries_left as [|k IH]; intros attempt.
  - split; [intros n Hn; lia|reflexivity].
  - destruct (IH (S attempt)) as [IH1 IH2]. split.
    + intros n Hn Hfail Hok. simpl.
      destruct n as [|n'].
      * rewrite Nat.add_0_r in *.
        destruct (outcome attempt); [now elim Hok|reflexivity|reflexivity].
      * pose proof (Hfail 0 ltac:(lia)) as H0. rewrite Nat.add_0_r in H0. rewrite H0.
        replace (attempt + S n') with (S attempt + n') in * by lia.
        apply IH1; [lia| |exact Hok].
        intros i Hi. replace (S attempt + i) with (attempt + S i) by lia.
        apply Hfail. lia.
    + intros Hfail. simpl.
      pose proof (Hfail 0 ltac:(lia)) as H0. rewrite Nat.add_0_r in H0. rewrite H0.
      apply IH2. intros i Hi. replace (S attempt + i) with (attempt + S i) by lia.
      apply Hfail. lia.
Qed.

Lemma attempts_from_ext : forall outcome outcome' retries_left attempt,
  (forall i, i < retries_left -> outcome (attempt + i) = outcome' (attempt + i)) ->
  attempts_from outcome attempt retries_left
  = attempts_from outcome' attempt retries_left.
Proof.
  intros outcome outcome'. induction retries_left as [|k IH]; intros attempt H;
    [reflexivity|].
  simpl. pose proof (H 0 ltac:(lia)) as H0. rewrite Nat.add_0_r in H0. rewrite <- H0.
  destruct (outcome attempt); try reflexivity.
  apply IH. intros i Hi. replace (S attempt + i) with (attempt + S i) by lia.
  apply H. lia.
Qed.

(** X8: [ask_mixtral] tries again only after a [requests] exception and at
    most [retries] times: the first turn that ends otherwise decides (the
    [response] string of its body, or the empty string), turns that all fail
    give the empty string, and nothing after the [retries]-th turn
    matters. *)
Theorem ask_mixtral_retries : forall outcome retries,
  (forall n, n < retries ->
     (forall i, i < n -> outcome i = RequestFailed) ->
     outcome n <> RequestFailed ->
     ask_mixtral outcome retries
     = match outcome n with
       | Body body => read_body body
       | _ => []
       end) /\
  ((forall i, i < retries -> outcome i = RequestFailed) ->
   ask_mixtral outcome retries = []) /\
  (forall outcome',
     (forall i, i < retries -> outcome i = outcome' i) ->
     ask_mixtral outcome retries = ask_mixtral outcome' retries).
Proof.
  intros outcome retries. unfold ask_mixtral.
  destruct (attempts_from_spec outcome retries 0) as [H1 H2].
  split; [exact H1|]. split; [exact H2|].
  intros outcome' H. apply attempts_from_ext. exact H.
Qed.

(** X9: whatever the backend replies, the text [ask_mixtral] hands to the
    loop is the [response] member of a body that is an object, when that
    member is a string, and the empty string in every other case. *)
Theorem read_body_cases : forall body,
  (forall m response_text,
     body = JObj m -> dict_get m (u "response") = Some (JStr response_text) ->
     read_body body = response_text) /\
  ((forall m response_text,
      body = JObj m -> dict_get m (u "response") <> Some (JStr response_text)) ->
   read_body body = []).
Proof.
  intros body. split.
  - intros m response_text -> H. unfold read_body. simpl. rewrite H. reflexivity.
  - intros H. unfold read_body.
    destruct body as [| | | | s | l | m]; simpl; try reflexivity.
    + destruct (is_infix_go (u "response") s); reflexivity.
    + destruct (existsb _ l); reflexivity.
    + destruct (dict_get m (u "response")) as [[| | | | t | |]|] eqn:E; try reflexivity.
      now elim (H m t eq_refl).
Qed.

(** ** Step 2 of the loop *)





Section ParseFurther.
Context {RT : PyRuntime}.


(** X11: only a call with a tool name that is not empty (nor null, zero
    or false) and with arguments that are an object is dispatched. *)
Theorem dispatched_call_is_well_formed : forall response_text tool_name tool_args,
  parse_action response_text = Ok (ToolCall tool_name tool_args) ->
  truthy tool_name = true /\ is_dict tool_args = true.
Proof.
  intros response_text tool_name tool_args. unfold parse_action.
  destruct (match search_fenced response_text with
            | Some g => Some g
            | None => search_braces response_text
            end) as [action_str|]; [|discriminate].
  destruct (json_loads action_str) as [action0|]; [|discriminate].
  destruct (py_in (u "action") action0) as [wrapped|]; simpl; [|discriminate].
  destruct (if wrapped
            then inner <- py_getitem action0 (u "action") ;;
                 Ok (if is_dict inner then inner else action0)
            else Ok action0) as [action|]; simpl; [|discriminate].
  destruct (py_in (u "final_answer") action) as [[|]|]; simpl; try discriminate.
  - destruct (py_getitem action (u "final_answer")); simpl; discriminate.
  - destruct (py_get action (u "tool")) as [name|]; simpl; [|discriminate].
    destruct (py_get_default action (u "arguments") (JObj [])) as [args|]; simpl;
      [|discriminate].
    destruct (negb (match name with Some t => truthy t | None => false end)
              || negb (is_dict args)) eqn:G; [discriminate|].
    intros H. injection H as <- <-.
    apply orb_false_iff in G. destruct G as [G1 G2].
    apply negb_false_iff in G1, G2.
    destruct name as [t|]; [|discriminate G1]. auto.
Qed.

End ParseFurther.

(** ** What a cycle does to the history and to the child *)

Section CycleFurther.
Context {RT : PyRuntime}.

Lemma after_pause_transport : forall env st,
  transport (after_pause env st) = transport st.
Proof.
  intros env st. unfold after_pause.
  destruct (paused env) as [[content|]|]; try reflexivity.
  destruct (PyStr.eqb (strip content) (task st)); reflexivity.
Qed.

Lemma record_result_spec : forall env st tool_name tool_args tool_result,
  let st' := record_result env st tool_name tool_args tool_result in
  transport st' = transport st /\ task st' = task st /\
  step st' = (step st + 1)%Z /\
  exists later,
    history st' = history st ++ tool_call_item tool_name tool_args tool_result :: later /\
    length later <= 1.
Proof.
  intros env st tool_name tool_args tool_result. unfold record_result.
  destruct (save_ok env);
    (destruct (correction env) as [[content|]|];
     [destruct (is_empty (strip content)) eqn:Ec|..]);
    simpl; repeat split;
    first [ exists []; rewrite ?app_nil_r; split; [reflexivity|simpl; lia]
          | exists [emergency_correction_item (strip content)];
            rewrite <- app_assoc; split; [reflexivity|simpl; lia] ].
Qed.

(** The agent after a cycle: as before, or after one call. *)
Lemma run_cycle_transport : forall env st,
  let o := run_cycle env st in
  transport (outcome_state o) = transport st \/
  exists tool_name tool_args,
    parse_action (response_text env) = Ok (ToolCall tool_name tool_args) /\
    transport (outcome_state o)
    = fst (call_mcp_tool (transport st) tool_name tool_args (polls env)).
Proof.
  intros env st. unfold run_cycle.
  destruct (begin_cycle env st) as [[prompt st2]|e] eqn:B; simpl.
  2:{ left. apply after_pause_transport. }
  destruct (begin_cycle_keeps _ _ B) as [Ht _].
  destruct (parse_action (response_text env)) as [[|message|answer|n a]|e]; simpl;
    try (left; exact Ht).
  - destruct (py_eq_str answer final_answer_sentinel); simpl; left; exact Ht.
  - right. exists n, a. split; [reflexivity|].
    unfold call_mcp_tool. cbn [fst].
    destruct (_wait_for_response _ _) as [res|e]; cbn [outcome_state];
      [|simpl; rewrite Ht; reflexivity].
    destruct (learn_capabilities a res); cbn [outcome_state];
      [|simpl; rewrite Ht; reflexivity].
    match goal with |- context [record_result env ?s n a res] =>
      destruct (record_result_spec env s n a res) as (T & _)
    end.
    rewrite T. simpl. rewrite Ht. reflexivity.
Qed.

(** X12: a cycle writes to the child at most once, and only to dispatch
    the tool call it parsed: however the cycle ends, either nothing was
    written and no id taken, or exactly one [tools/call] request with the
    parsed name and arguments was written under the id the counter held,
    which then moved on by one. *)
Theorem cycle_sends_at_most_one_request : forall env st,
  let a := transport st in
  let a' := transport (outcome_state (run_cycle env st)) in
  (sent a' = sent a /\ request_id a' = request_id a) \/
  exists tool_name tool_args,
    parse_action (response_text env) = Ok (ToolCall tool_name tool_args) /\
    request_id a' = (request_id a + 1)%Z /\
    sent a' = if stdin_open a
              then sent a ++ [tools_call_request (request_id a) tool_name tool_args]
              else sent a.
Proof.
  intros env st a a'. subst a a'.
  destruct (run_cycle_transport env st) as [E | (n & args & Hp & E)].
  - left. rewrite E. auto.
  - right. exists n, args. split; [exact Hp|]. rewrite E.
    unfold call_mcp_tool, _send_mcp_raw. simpl.
    destruct (stdin_open (transport st)); auto.
Qed.


(** X14: the loop ends with the goal achieved exactly when the parsed
    object has a [final_answer] equal to the sentinel string; the state it
    ends in is the one at the top of the cycle: nothing is appended. *)
Theorem goal_achieved_iff_sentinel : forall env st st',
  run_cycle env st = GoalAchieved st' <->
  exists prompt answer,
    begin_cycle env st = Ok (prompt, st') /\
    parse_action (response_text env) = Ok (FinalAnswer answer) /\
    py_eq_str answer final_answer_sentinel = true.
Proof.
  intros env st st'. unfold run_cycle. split.
  - intros H.
    destruct (begin_cycle env st) as [[prompt st2]|e]; [|discriminate].
    destruct (parse_action (response_text env)) as [[|message|answer|n a]|e];
      try discriminate.
    + destruct (py_eq_str answer final_answer_sentinel) eqn:E; [|discriminate].
      injection H as <-. eauto.
    + unfold call_mcp_tool in H.
      destruct (_wait_for_response _ _) as [res|e]; [|discriminate].
      destruct (learn_capabilities a res); discriminate.
  - intros (prompt & answer & Hb & Hp & He). rewrite Hb, Hp, He. reflexivity.
Qed.

(** X15: when every turn of [ask_mixtral] fails with a [requests]
    exception, the cycle records a [reasoning_error] whose raw response is
    the empty string and goes on; nothing is sent to the child. *)
Theorem backend_down_is_a_reasoning_error : forall env st prompt st2 outcome,
  begin_cycle env st = Ok (prompt, st2) ->
  response_text env = ask_mixtral outcome default_retries ->
  (forall i, i < default_retries -> outcome i = RequestFailed) ->
  run_cycle env st = Continue (append st2 (reasoning_error_item [])).
Proof.
  intros env st prompt st2 outcome Hb Hr Hfail.
  assert (E : response_text env = []).
  { rewrite Hr. unfold ask_mixtral.
    apply (proj2 (attempts_from_spec outcome default_retries 0)). exact Hfail. }
  unfold run_cycle. rewrite Hb, E. reflexivity.
Qed.

(** X16: the loop keeps the discipline of the correlation ids: after any
    number of cycles run on an agent that a handshake and tool calls have
    produced, the ids of all requests written are still 1, 2, 3, ... in
    order. *)
Theorem run_loop_keeps_request_ids : forall envs st,
  reachable (transport st) ->
  let a' := transport (outcome_state (run_loop envs st)) in
  reachable a' /\
  exists n, request_ids (sent a') = first_ids n /\ (Z.of_nat n < request_id a')%Z.
Proof.
  assert (Hreach : forall envs st, reachable (transport st) ->
            reachable (transport (outcome_state (run_loop envs st)))).
  { induction envs as [|env later IH]; intros st Hst; cbn [run_loop]; [exact Hst|].
    assert (Hone : reachable (transport (outcome_state (run_cycle env st)))).
    { destruct (run_cycle_transport env st) as [E | (n & a & _ & E)]; rewrite E.
      - exact Hst.
      - apply reach_call. exact Hst. }
    destruct (run_cycle env st) as [st1|st1|e st1]; cbn [outcome_state] in *; auto. }
  intros envs st Hst a'. split; [apply Hreach, Hst|].
  destruct (ids_invariant (Hreach envs st Hst)) as [Hpos Hids]. fold a' in Hpos, Hids.
  exists (if stdin_open a' then Z.to_nat (request_id a' - 1) else 0).
  rewrite Hids. destruct (stdin_open a'); split; try reflexivity; lia.
Qed.

End CycleFurther.

(** ** What [json.dumps] writes, [json.loads] reads back *)

Lemma pystr_eqb_eq : forall a b, PyStr.eqb a b = true <-> a = b.
Proof.
  induction a as [|x a IH]; destruct b as [|y b]; simpl; split; intros H;
    try reflexivity; try discriminate.
  - apply andb_true_iff in H. destruct H as [H1 H2].
    apply N.eqb_eq in H1. apply IH in H2. congruence.
  - injection H as -> ->. rewrite N.eqb_refl. simpl. now apply IH.
Qed.

Lemma dict_set_fresh : forall acc k v,
  existsb (PyStr.eqb k) (map fst acc) = false ->
  dict_set acc k v = acc ++ [(k, v)].
Proof.
  induction acc as [|[k' v'] acc IH]; intros k v H; simpl in *; [reflexivity|].
  apply orb_false_iff in H. destruct H as [H1 H2].
  destruct (PyStr.eqb k' k) eqn:E.
  - apply pystr_eqb_eq in E. subst k'.
    assert (PyStr.eqb k k = true) by now apply pystr_eqb_eq. congruence.
  - now rewrite IH.
Qed.

(** Strings *)

Lemma scanstring_escape_char : forall c r acc,
  scanstring (escape_char c ++ r) acc = scanstring r (c :: acc).
Proof.
  intros c r acc. destruct (c <? 32)%N eqn:L.
  - apply N.ltb_lt in L.
    assert (H : exists n, n < 32 /\ c = N.of_nat n)
      by (exists (N.to_nat c); split; lia).
    destruct H as (n & Hn & ->). clear L.
    do 32 (destruct n as [|n];
           [destruct r as [|b [|l [|g1 [|g2 [|g3 [|g4 r3]]]]]]; reflexivity|]).
    lia.
  - unfold escape_char.
    destruct (c =? 34)%N eqn:E1; [apply N.eqb_eq in E1; subst; reflexivity|].
    destruct (c =? 92)%N eqn:E2; [apply N.eqb_eq in E2; subst; reflexivity|].
    destruct (c =? 10)%N eqn:E3; [apply N.eqb_eq in E3; subst; discriminate L|].
    destruct (c =? 13)%N eqn:E4; [apply N.eqb_eq in E4; subst; discriminate L|].
    destruct (c =? 9)%N eqn:E5; [apply N.eqb_eq in E5; subst; discriminate L|].
    destruct (c =? 8)%N eqn:E6; [apply N.eqb_eq in E6; subst; discriminate L|].
    destruct (c =? 12)%N eqn:E7; [apply N.eqb_eq in E7; subst; discriminate L|].
    rewrite L. simpl. rewrite E1, E2, L. reflexivity.
Qed.

Lemma scanstring_escaped : forall s r acc,
  scanstring (flat_map escape_char s ++ 34%N :: r) acc = Some (rev acc ++ s, r).
Proof.
  induction s as [|c s IH]; intros r acc; simpl.
  - rewrite app_nil_r. reflexivity.
  - rewrite <- app_assoc, scanstring_escape_char, IH. simpl.
    rewrite <- app_assoc. reflexivity.
Qed.

(** Integers *)

Lemma Z_of_digits_app : forall ds es a,
  Z_of_digits (ds ++ es) a = Z_of_digits es (Z_of_digits ds a).
Proof. induction ds as [|d ds IH]; intros es a; simpl; [reflexivity|apply IH]. Qed.

Lemma take_digits_app : forall ds rest acc,
  Forall (fun d => is_digit d = true) ds ->
  match rest with [] => True | c :: _ => is_digit c = false end ->
  take_digits (ds ++ rest) acc = (rev acc ++ ds, rest).
Proof.
  induction ds as [|d ds IH]; intros rest acc Hd Hr; simpl.
  - rewrite app_nil_r. destruct rest as [|c rest]; simpl; [reflexivity|]. now rewrite Hr.
  - inversion Hd as [|? ? Hd1 Hd2]; subst. rewrite Hd1, IH by assumption.
    simpl. rewrite <- app_assoc. reflexivity.
Qed.

(** The digits [str] writes for a natural number: at least one, no leading
    zero except for zero itself, and of the value of the number. *)
Lemma digits_go_spec : forall fuel n acc,
  0 < fuel -> (n < 2 ^ N.of_nat fuel)%N ->
  exists d ds,
    digits_go fuel n acc = (d :: ds) ++ acc /\
    Forall (fun c => is_digit c = true) (d :: ds) /\
    (forall a, Z_of_digits (d :: ds) a
               = (a * 10 ^ Z.of_nat (length (d :: ds)) + Z.of_N n)%Z) /\
    (d = 48%N -> ds = [] /\ n = 0%N).
Proof.
  induction fuel as [|f IH]; intros n acc Hf Hn; [lia|].
  cbn [digits_go]. cbv zeta.
  pose proof (N.mod_lt n 10 ltac:(lia)) as Hmod.
  pose proof (N.div_mod n 10 ltac:(lia)) as Hsplit.
  rewrite Nat2N.inj_succ, N.pow_succ_r' in Hn.
  remember (n mod 10)%N as m eqn:Em. remember (n / 10)%N as q eqn:Eq.
  remember (2 ^ N.of_nat f)%N as P eqn:EP.
  clear Em Eq.
  assert (Hdig : is_digit (48 + m) = true).
  { unfold is_digit. apply andb_true_iff. split; apply N.leb_le; lia. }
  destruct (q =? 0)%N eqn:Q.
  - apply N.eqb_eq in Q. exists (48 + m)%N, []. cbn [app].
    split; [reflexivity|]. split; [repeat constructor; exact Hdig|]. split.
    + intros a. cbn [Z_of_digits length]. change (10 ^ Z.of_nat 1)%Z with 10%Z.
      replace (Z.of_N (48 + m - 48)) with (Z.of_N m) by (f_equal; lia). lia.
    + intros H48. split; [reflexivity|]. lia.
  - apply N.eqb_neq in Q.
    assert (Hq : (q < P)%N) by lia.
    assert (Hf' : 0 < f).
    { destruct f; [|lia]. simpl in EP. subst P. lia. }
    destruct (IH q ((48 + m)%N :: acc) Hf' Hq) as (d & ds & E & Hd & Hv & H0).
    exists d, (ds ++ [(48 + m)%N]).
    split; [rewrite E; simpl; rewrite <- app_assoc; reflexivity|].
    split; [change (d :: ds ++ [(48 + m)%N]) with ((d :: ds) ++ [(48 + m)%N]);
            apply Forall_app; split; [exact Hd|repeat constructor; exact Hdig]|].
    split.
    + intros a.
      change (d :: ds ++ [(48 + m)%N]) with ((d :: ds) ++ [(48 + m)%N]).
      assert (Hp : (10 ^ Z.of_nat (length ((d :: ds) ++ [(48 + m)%N]))
                    = 10 * 10 ^ Z.of_nat (length (d :: ds)))%Z).
      { rewrite length_app. change (length [(48 + m)%N]) with 1.
        rewrite Nat.add_1_r, Nat2Z.inj_succ, Z.pow_succ_r by lia. reflexivity. }
      rewrite Z_of_digits_app, Hv, Hp. cbn [Z_of_digits].
      remember (10 ^ Z.of_nat (length (d :: ds)))%Z as T.
      replace (Z.of_N (48 + m - 48)) with (Z.of_N m) by (f_equal; lia).
      lia.
    + intros H48. destruct (H0 H48) as [_ Hz]. now elim Q.
Qed.

Lemma str_of_N_spec : forall n,
  exists d ds,
    str_of_N n = d :: ds /\
    Forall (fun c => is_digit c = true) (d :: ds) /\
    Z_of_digits (d :: ds) 0 = Z.of_N n /\
    (d = 48%N -> ds = [] /\ n = 0%N).
Proof.
  intros n. unfold str_of_N.
  destruct (@digits_go_spec (S (N.to_nat (N.log2 n))) n []) as (d & ds & E & Hd & Hv & H0).
  - lia.
  - rewrite Nat2N.inj_succ, N2Nat.id.
    destruct n as [|p]; [reflexivity|]. apply N.log2_spec. lia.
  - exists d, ds. rewrite E, app_nil_r.
    split; [reflexivity|]. split; [exact Hd|].
    split; [rewrite Hv, Z.mul_0_l; reflexivity|exact H0].
Qed.

Lemma ends_value_not_digit : forall rest,
  ends_value rest -> match rest with [] => True | c :: _ => is_digit c = false end.
Proof.
  intros [|c rest] H; [exact I|]. destruct H as [-> | ->]; reflexivity.
Qed.

Lemma match_frac_none : forall rest, ends_value rest -> match_frac rest = ([], rest).
Proof.
  intros [|c [|d rest]] H; try reflexivity.
  destruct H as [-> | ->]; reflexivity.
Qed.

Lemma match_exp_none : forall rest, ends_value rest -> match_exp rest = ([], rest).
Proof.
  intros [|c rest] H; [reflexivity|]. destruct H as [-> | ->]; reflexivity.
Qed.

Lemma match_number_digits : forall (neg : bool) d ds rest,
  Forall (fun c => is_digit c = true) (d :: ds) ->
  (d = 48%N -> ds = []) ->
  ends_value rest ->
  match_number ((if neg then [45%N] else []) ++ (d :: ds) ++ rest)
  = Some (JInt (if neg then - Z_of_digits (d :: ds) 0 else Z_of_digits (d :: ds) 0)%Z,
          rest).
Proof.
  intros neg d ds rest Hd H0 Hr.
  inversion Hd as [|? ? Hd1 Hd2]; subst.
  assert (Hnot45 : (d =? 45)%N = false).
  { unfold is_digit in Hd1. apply andb_true_iff in Hd1. destruct Hd1 as [A B].
    apply N.leb_le in A, B. apply N.eqb_neq. lia. }
  assert (Hint : match_integer ((if neg then [45%N] else []) ++ (d :: ds) ++ rest)
                 = Some (neg, d :: ds, rest)).
  { unfold match_integer.
    assert (Hbody : match (d :: ds) ++ rest with
                    | [] => None
                    | c :: r =>
                      if (c =? 48)%N then Some (neg, [48%N], r)
                      else if is_digit c
                           then let (ds0, r') := take_digits r [] in Some (neg, c :: ds0, r')
                           else None
                    end = Some (neg, d :: ds, rest)).
    { simpl. destruct (d =? 48)%N eqn:E.
      - apply N.eqb_eq in E. subst d. rewrite (H0 eq_refl). reflexivity.
      - rewrite Hd1.
        rewrite (@take_digits_app ds rest [] Hd2 (@ends_value_not_digit rest Hr)).
        reflexivity. }
    destruct neg; simpl.
    - exact Hbody.
    - rewrite Hnot45. exact Hbody. }
  unfold match_number. rewrite Hint.
  rewrite match_frac_none, match_exp_none by assumption. reflexivity.
Qed.

Lemma match_number_int : forall z rest,
  ends_value rest -> match_number (str_of_Z z ++ rest) = Some (JInt z, rest).
Proof.
  intros z rest Hr.
  assert (Hn : forall (neg : bool) n, (neg = true -> n <> 0%N) ->
            match_number ((if neg then [45%N] else []) ++ str_of_N n ++ rest)
            = Some (JInt (if neg then - Z.of_N n else Z.of_N n)%Z, rest)).
  { intros neg n Hneg.
    destruct (str_of_N_spec n) as (d & ds & E & Hd & Hv & H0).
    rewrite E, match_number_digits; auto.
    - rewrite Hv. reflexivity.
    - intros H48. apply H0. exact H48. }
  destruct z as [|p|p]; unfold str_of_Z.
  - apply (Hn false 0%N). discriminate.
  - apply (Hn false (Npos p)). discriminate.
  - change (45%N :: str_of_N (N.pos p)) with ([45%N] ++ str_of_N (N.pos p)).
    rewrite <- app_assoc. apply (Hn true (Npos p)). intros _. discriminate.
Qed.

(** Blanks and the first character of a value *)

Lemma skip_ws_indent : forall level x,
  skip_ws (newline_indent level ++ x) = skip_ws x.
Proof.
  intros level x. unfold newline_indent.
  generalize (2 * level). intros n. cbn [app skip_ws].
  change (json_ws 10) with true. cbv iota.
  induction n as [|n IH]; [reflexivity|exact IH].
Qed.

Lemma skip_ws_stop : forall c r, json_ws c = false -> skip_ws (c :: r) = c :: r.
Proof. intros c r H. simpl. now rewrite H. Qed.

Lemma digit_not : forall c k,
  is_digit c = true -> is_digit k = false -> (c =? k)%N = false.
Proof.
  intros c k Hc Hk. destruct (c =? k)%N eqn:E; [|reflexivity].
  apply N.eqb_eq in E. congruence.
Qed.

Lemma distinct_NoDup : forall ks, distinct ks = true -> NoDup ks.
Proof.
  induction ks as [|k ks IH]; simpl; intros H; constructor.
  - apply andb_true_iff in H. destruct H as [H _]. apply negb_true_iff in H.
    intros Hin. assert (existsb (PyStr.eqb k) ks = true); [|congruence].
    apply existsb_exists. exists k. split; [exact Hin|now apply pystr_eqb_eq].
  - apply IH. apply andb_true_iff in H. tauto.
Qed.

Lemma fresh_key : forall (k : pystr) ks,
  ~ In k ks -> existsb (PyStr.eqb k) ks = false.
Proof.
  intros k ks H. destruct (existsb (PyStr.eqb k) ks) eqn:E; [|reflexivity].
  apply existsb_exists in E. destruct E as (k' & Hin & Heq).
  apply pystr_eqb_eq in Heq. subst k'. contradiction.
Qed.

(** Induction on a JSON value with its members. *)
Lemma json_induction : forall P : json -> Prop,
  P JNull -> (forall b, P (JBool b)) -> (forall z, P (JInt z)) ->
  (forall l, P (JFloat l)) -> (forall s, P (JStr s)) ->
  (forall l, Forall P l -> P (JArr l)) ->
  (forall m, Forall (fun kv => P (snd kv)) m -> P (JObj m)) ->
  forall v, P v.
Proof.
  intros P Hnull Hbool Hint Hfloat Hstr Harr Hobj.
  fix IH 1. intros [| b | z | l | s | l | m].
  - exact Hnull.
  - apply Hbool.
  - apply Hint.
  - apply Hfloat.
  - apply Hstr.
  - apply Harr. induction l as [|x l IHl]; constructor; [apply IH|exact IHl].
  - apply Hobj. induction m as [|[k x] m IHm]; constructor; [apply IH|exact IHm].
Qed.

Section RoundTrip.
Context {RT : PyRuntime}.

Lemma dumps_head : forall level v,
  plain v = true ->
  exists c r, dumps_at level v = c :: r /\ json_ws c = false /\ (c =? 93)%N = false.
Proof.
  intros level v Hp. destruct v as [| [|] | z | l | s | l | m]; simpl;
    try discriminate Hp; try (eexists; eexists; split; [reflexivity|split; reflexivity]).
  - assert (Hn : forall n, exists c r, str_of_N n = c :: r /\ json_ws c = false
                                       /\ (c =? 93)%N = false).
    { intros n. destruct (str_of_N_spec n) as (d & ds & E & Hd & _).
      inversion Hd as [|? ? Hd1 _]; subst. exists d, ds. split; [exact E|].
      unfold json_ws.
      rewrite !(@digit_not d _ Hd1) by reflexivity. split; reflexivity. }
    destruct z as [|p|p]; simpl; try apply Hn.
    eexists; eexists; split; [reflexivity|split; reflexivity].
  - destruct l; simpl; eexists; eexists; split; try reflexivity; split; reflexivity.
  - destruct m; simpl; eexists; eexists; split; try reflexivity; split; reflexivity.
Qed.


Lemma skip_to_value : forall indent level v x,
  plain v = true ->
  skip_ws (newline_indent indent ++ dumps_at level v ++ x)
  = dumps_at level v ++ x.
Proof.
  intros indent level v x Hp. rewrite skip_ws_indent.
  destruct (dumps_head level v Hp) as (c & r & E & Hw & _).
  rewrite E. simpl. now rewrite Hw.
Qed.

Lemma parse_elems_reads_back : forall level rest l,
  Forall reads_back l -> forallb plain l = true ->
  forall x acc fuel,
  reads_back x -> plain x = true ->
  S (size x + fold_right (fun e n => S (size e + n)) 0 l) <= fuel ->
  parse_elems fuel
    (dumps_at (S level) x
     ++ flat_map (fun y => 44%N :: newline_indent (S level) ++ y)
          (map (dumps_at (S level)) l)
     ++ newline_indent level ++ 93%N :: rest) acc
  = Scanned (JArr (rev acc ++ x :: l)) rest.
Proof.
  intros level rest l Hl. induction Hl as [|y l Hy Hl IH];
    intros Hpl x acc fuel Hx Hpx Hf.
  - destruct fuel as [|f]; [lia|]. cbn [parse_elems map flat_map app].
    rewrite (Hx Hpx (S level)) by (simpl; auto; lia).
    rewrite skip_ws_indent. simpl. reflexivity.
  - simpl in Hpl. apply andb_true_iff in Hpl. destruct Hpl as [Hpy Hpl].
    simpl in Hf.
    destruct fuel as [|f]; [lia|]. cbn [parse_elems map flat_map].
    rewrite (Hx Hpx (S level)) by (simpl; auto; lia).
    cbn [skip_ws app]. change (json_ws 44) with false. cbv iota.
    change (44 =? 93)%N with false. change (44 =? 44)%N with true. cbv iota.
    rewrite <- !app_assoc. rewrite skip_to_value by exact Hpy.
    rewrite (IH Hpl y (x :: acc) f Hy Hpy) by lia.
    simpl. rewrite <- app_assoc. reflexivity.
Qed.

Lemma parse_pairs_reads_back : forall level rest m,
  Forall (fun kv => reads_back (snd kv)) m ->
  forallb (fun kv => plain (snd kv)) m = true ->
  forall k x acc fuel,
  reads_back x -> plain x = true ->
  NoDup (map fst (acc ++ (k, x) :: m)) ->
  S (size x + fold_right (fun kv n => S (size (snd kv) + n)) 0 m) <= fuel ->
  parse_pairs fuel
    (flat_map escape_char k ++ 34%N :: 58%N :: 32%N :: dumps_at (S level) x
     ++ flat_map (fun y => 44%N :: newline_indent (S level) ++ y)
          (map (fun kv => encode_basestring (fst kv) ++ [58%N; 32%N]
                            ++ dumps_at (S level) (snd kv)) m)
     ++ newline_indent level ++ 125%N :: rest) acc
  = Scanned (JObj (acc ++ (k, x) :: m)) rest.
Proof.
  intros level rest m Hm. induction Hm as [|[k2 y] m Hy Hm IH];
    intros Hpm k x acc fuel Hx Hpx Hnd Hf.
  - destruct fuel as [|f]; [lia|]. cbn [parse_pairs map flat_map app].
    rewrite scanstring_escaped. cbn [rev app skip_ws].
    change (json_ws 58) with false. cbv iota.
    change (58 =? 58)%N with true. cbv iota.
    cbn [skip_ws]. change (json_ws 32) with true. cbv iota.
    destruct (dumps_head (S level) x Hpx) as (c & r & E & Hw & _).
    assert (Hs : forall t, skip_ws (dumps_at (S level) x ++ t) = dumps_at (S level) x ++ t).
    { intros t. rewrite E. simpl. now rewrite Hw. }
    rewrite Hs. rewrite (Hx Hpx (S level)) by (simpl; auto; lia).
    rewrite skip_ws_indent. cbn [skip_ws].
    change (json_ws 125) with false. cbv iota.
    change (125 =? 125)%N with true. cbv iota.
    rewrite dict_set_fresh; [reflexivity|].
    apply fresh_key. rewrite map_app in Hnd. simpl in Hnd.
    apply NoDup_remove_2 in Hnd. intros Hin. apply Hnd. apply in_or_app. now left.
  - simpl in Hpm. apply andb_true_iff in Hpm. destruct Hpm as [Hpy Hpm].
    simpl in Hy. simpl in Hf.
    destruct fuel as [|f]; [lia|]. cbn [parse_pairs map flat_map app].
    rewrite scanstring_escaped. cbn [rev app skip_ws].
    change (json_ws 58) with false. cbv iota.
    change (58 =? 58)%N with true. cbv iota.
    cbn [skip_ws]. change (json_ws 32) with true. cbv iota.
    destruct (dumps_head (S level) x Hpx) as (c & r & E & Hw & _).
    assert (Hs : forall t, skip_ws (dumps_at (S level) x ++ t) = dumps_at (S level) x ++ t).
    { intros t. rewrite E. simpl. now rewrite Hw. }
    rewrite Hs. rewrite (Hx Hpx (S level)) by (simpl; auto; lia).
    cbn [skip_ws fst snd]. change (json_ws 44) with false. cbv iota.
    change (44 =? 125)%N with false. change (44 =? 44)%N with true. cbv iota.
    rewrite <- !app_assoc. rewrite skip_ws_indent.
    unfold encode_basestring at 1. cbn [app skip_ws].
    change (json_ws 34) with false. cbv iota.
    change (34 =? 34)%N with true. cbv iota.
    assert (Hfresh : dict_set acc k x = acc ++ [(k, x)]).
    { apply dict_set_fresh. apply fresh_key. rewrite map_app in Hnd. simpl in Hnd.
      apply NoDup_remove_2 in Hnd. intros Hin. apply Hnd. apply in_or_app. now left. }
    rewrite Hfresh. rewrite <- !app_assoc. cbn [app].
    transitivity (Scanned (JObj ((acc ++ [(k, x)]) ++ (k2, y) :: m)) rest);
      [|now rewrite <- app_assoc].
    apply (IH Hpm k2 y (acc ++ [(k, x)]) f Hy Hpy).
    + rewrite <- app_assoc. exact Hnd.
    + lia.
Qed.

Lemma scan_once_digit : forall fuel c r,
  is_digit c = true ->
  scan_once (S fuel) (c :: r)
  = match match_number (c :: r) with
    | Some (v, r') => Scanned v r'
    | None => DecodeError
    end.
Proof.
  intros fuel c r Hc. cbn [scan_once].
  rewrite !(@digit_not c _ Hc) by reflexivity.
  replace (strip_prefix (u "-Infinity") (c :: r)) with (@None pystr); [reflexivity|].
  assert (E : u "-Infinity" = 45%N :: u "Infinity") by reflexivity.
  rewrite E. cbn [strip_prefix]. rewrite N.eqb_sym.
  now rewrite (@digit_not c 45%N Hc).
Qed.

Lemma scan_once_minus : forall fuel d r,
  is_digit d = true ->
  scan_once (S fuel) (45%N :: d :: r)
  = match match_number (45%N :: d :: r) with
    | Some (v, r') => Scanned v r'
    | None => DecodeError
    end.
Proof.
  intros fuel d r Hd. cbn [scan_once].
  replace (strip_prefix (u "-Infinity") (45%N :: d :: r)) with (@None pystr); [reflexivity|].
  assert (E : u "-Infinity" = 45%N :: 73%N :: u "nfinity") by reflexivity.
  rewrite E. cbn [strip_prefix]. change (45 =? 45)%N with true. cbv iota.
  rewrite N.eqb_sym. now rewrite (@digit_not d 73%N Hd).
Qed.

Lemma scan_once_int : forall fuel z rest,
  ends_value rest ->
  scan_once (S fuel) (str_of_Z z ++ rest) = Scanned (JInt z) rest.
Proof.
  intros fuel z rest Hr.
  pose proof (@match_number_int z rest Hr) as Hm.
  assert (Hn : forall n, exists d ds, str_of_N n = d :: ds /\ is_digit d = true).
  { intros n. destruct (str_of_N_spec n) as (d & ds & E & Hd & _).
    inversion Hd as [|? ? Hd1 Hd2]; subst. exists d, ds. split; [exact E|exact Hd1]. }
  destruct z as [|p|p]; unfold str_of_Z in *.
  - change (str_of_N (Z.to_N 0) ++ rest) with (48%N :: rest) in *.
    rewrite scan_once_digit by reflexivity. now rewrite Hm.
  - destruct (Hn (Z.to_N (Z.pos p))) as (d & ds & E & Hd).
    cbn [Z.ltb Z.compare] in *. rewrite E in *.
    cbn [app] in *. rewrite scan_once_digit by exact Hd. now rewrite Hm.
  - destruct (Hn (Npos p)) as (d & ds & E & Hd).
    cbn [Z.ltb Z.compare] in *. rewrite E in *.
    cbn [app] in *. rewrite scan_once_minus by exact Hd. now rewrite Hm.
Qed.

Lemma scan_once_array : forall fuel s t,
  skip_ws s = t -> (hd 93%N t =? 93)%N = false ->
  scan_once (S fuel) (91%N :: s) = parse_elems fuel t [].
Proof.
  intros fuel s t Hs Hc. cbn [scan_once].
  change (91 =? 34)%N with false. change (91 =? 123)%N with false.
  change (91 =? 91)%N with true. cbv iota. rewrite Hs.
  destruct t as [|c r]; [discriminate Hc|]. simpl in Hc. now rewrite Hc.
Qed.

Lemma scan_once_object : forall fuel s r,
  skip_ws s = 34%N :: r ->
  scan_once (S fuel) (123%N :: s) = parse_pairs fuel r [].
Proof.
  intros fuel s r Hs. cbn [scan_once].
  change (123 =? 34)%N with false. change (123 =? 123)%N with true. cbv iota.
  rewrite Hs. reflexivity.
Qed.

(** With fuel for its size, the scanner reads a value back from what
    [json.dumps] wrote for it, whatever the indentation level and whatever
    follows. *)
Lemma dumps_scans_back : forall v, reads_back v.
Proof.
  induction v as [| b | z | l | s | l IHl | m IHm] using json_induction;
    unfold reads_back; intros Hp level rest fuel Hr Hf.
  - destruct fuel as [|f]; [simpl in Hf; lia|]. reflexivity.
  - destruct fuel as [|f]; [simpl in Hf; lia|]. destruct b; reflexivity.
  - destruct fuel as [|f]; [simpl in Hf; lia|]. now apply scan_once_int.
  - discriminate Hp.
  - destruct fuel as [|f]; [simpl in Hf; lia|].
    cbn [dumps_at]. unfold encode_basestring. cbn [app scan_once].
    change (34 =? 34)%N with true. cbv iota.
    rewrite <- app_assoc. cbn [app]. now rewrite scanstring_escaped.
  - destruct fuel as [|f]; [simpl in Hf; lia|].
    destruct l as [|x l]; [reflexivity|].
    inversion IHl as [|? ? Hx Hl]; subst.
    simpl in Hp. apply andb_true_iff in Hp. destruct Hp as [Hpx Hpl].
    simpl in Hf.
    destruct (dumps_head (S level) x Hpx) as (c & r & E & Hw & H93).
    cbn [dumps_at map frame app]. rewrite <- !app_assoc. cbn [app].
    erewrite scan_once_array;
      [| apply skip_to_value; exact Hpx | rewrite E; exact H93].
    apply (@parse_elems_reads_back level rest l Hl Hpl x [] f Hx Hpx). lia.
  - destruct fuel as [|f]; [simpl in Hf; lia|].
    destruct m as [|[k x] m]; [reflexivity|].
    inversion IHm as [|? ? Hx Hm]; subst. simpl in Hx.
    cbn [plain map fst] in Hp. apply andb_true_iff in Hp. destruct Hp as [Hd Hp].
    simpl in Hp. apply andb_true_iff in Hp. destruct Hp as [Hpx Hpm].
    simpl in Hf.
    cbn [dumps_at map frame app fst snd]. unfold encode_basestring at 1.
    rewrite <- !app_assoc. cbn [app].
    erewrite scan_once_object;
      [| rewrite skip_ws_indent; cbn [app skip_ws];
         change (json_ws 34) with false; cbv iota; reflexivity].
    rewrite <- !app_assoc. cbn [app].
    apply (@parse_pairs_reads_back level rest m Hm Hpm k x [] f Hx Hpx).
    + apply distinct_NoDup. exact Hd.
    + apply le_S_n. exact Hf.
Qed.

(** The fuel [json_loads] starts with is enough for what [json.dumps]
    wrote: a value is no larger than its text. *)
Lemma frame_length : forall (A : Type) (txt : A -> pystr) (sz : A -> nat)
    opening closing level (l : list A),
  Forall (fun a => sz a <= length (txt a)) l ->
  S (fold_right (fun a n => S (sz a + n)) 0 l)
  <= length (frame opening closing level (map txt l)).
Proof.
  intros A txt sz opening closing level l Hl.
  destruct Hl as [|x l Hx Hl]; [simpl; lia|].
  assert (H : fold_right (fun a n => S (sz a + n)) 0 l
              <= length (flat_map (fun y => 44%N :: newline_indent (S level) ++ y)
                           (map txt l))).
  { induction Hl as [|y l Hy Hl IH]; [simpl; lia|].
    cbn [fold_right map flat_map app length]. rewrite !length_app.
    unfold pystr in *. lia. }
  cbn [fold_right map frame length]. rewrite !length_app. cbn [length].
  unfold pystr in *. lia.
Qed.

Lemma size_le_length : forall v level,
  plain v = true -> size v <= length (dumps_at level v).
Proof.
  induction v as [| b | z | l | s | l IHl | m IHm] using json_induction;
    intros level Hp.
  - simpl. lia.
  - destruct b; simpl; lia.
  - destruct (dumps_head level (JInt z) Hp) as (c & r & E & _). rewrite E. simpl. lia.
  - discriminate Hp.
  - simpl. lia.
  - cbn [dumps_at size]. apply frame_length.
    simpl in Hp. rewrite forallb_forall in Hp.
    rewrite Forall_forall in *. intros x Hin. apply IHl; auto.
  - cbn [dumps_at size].
    apply (@frame_length _
             (fun kv => encode_basestring (fst kv) ++ [58%N; 32%N]
                          ++ dumps_at (S level) (snd kv))
             (fun kv => size (snd kv))).
    simpl in Hp. apply andb_true_iff in Hp. destruct Hp as [_ Hp].
    rewrite forallb_forall in Hp.
    rewrite Forall_forall in *. intros x Hin. rewrite !length_app.
    specialize (IHm x Hin (S level) (Hp x Hin)). lia.
Qed.

Lemma loads_dumps_at : forall v level,
  plain v = true -> json_loads (dumps_at level v) = Some v.
Proof.
  intros v level Hp. unfold json_loads.
  destruct (dumps_head level v Hp) as (c & r & E & Hw & _).
  assert (Hs : skip_ws (dumps_at level v) = dumps_at level v).
  { rewrite E. simpl. now rewrite Hw. }
  rewrite Hs. rewrite <- (app_nil_r (dumps_at level v)) at 2.
  rewrite (@dumps_scans_back v Hp level []); [reflexivity|exact I|].
  pose proof (@size_le_length v level Hp). unfold loads_fuel. lia.
Qed.


Lemma record_result_file : forall env st tool_name tool_args tool_result,
  save_ok env = true ->
  history_file (record_result env st tool_name tool_args tool_result)
  = Some (dumps_indent
            (JArr (history st ++ [tool_call_item tool_name tool_args tool_result]))).
Proof.
  intros env st tool_name tool_args tool_result Hs. unfold record_result.
  rewrite Hs.
  destruct (correction env) as [[content|]|];
    [destruct (is_empty (strip content))|..]; reflexivity.
Qed.

(** X18: a run that starts after a cycle with a tool call saved the
    history resumes with the history as that cycle recorded it, the record
    of the call last, and counts its steps from there.  An emergency
    correction read in that cycle was appended after the write: the new run
    does not have it. *)
Theorem restart_resumes_saved_history :
  forall env st prompt st2 tool_name tool_args tool_result st' a content,
  begin_cycle env st = Ok (prompt, st2) ->
  parse_action (response_text env) = Ok (ToolCall tool_name tool_args) ->
  _wait_for_response (request_id (transport st2)) (polls env) = Ok tool_result ->
  learn_capabilities tool_args tool_result = Ok tt ->
  run_cycle env st = Continue st' ->
  save_ok env = true ->
  forallb plain (history st2) = true ->
  plain (tool_call_item tool_name tool_args tool_result) = true ->
  is_empty (strip content) = false ->
  let recorded := history st2 ++ [tool_call_item tool_name tool_args tool_result] in
  start_run a (Some content) (history_file st') true
  = Running {| task := strip content; history := recorded;
               step := Z.of_nat (length (history st2)) + 2;
               transport := a; history_file := history_file st' |}.
Proof.
  intros env st prompt st2 tool_name tool_args tool_result st' a content
         Hb Hp Hw Hl Hrun Hs Hh Hi Hc recorded.
  unfold run_cycle in Hrun. rewrite Hb, Hp in Hrun. unfold call_mcp_tool in Hrun.
  rewrite Hw, Hl in Hrun. injection Hrun as <-.
  rewrite record_result_file by exact Hs.
  change (history (set_transport st2 _)) with (history st2). fold recorded.
  unfold start_run. rewrite Hc. unfold dumps_indent.
  rewrite (@loads_dumps_at (JArr recorded) 0).
  - unfold recorded. rewrite length_app. simpl.
    do 2 f_equal. lia.
  - cbn [plain]. unfold recorded. rewrite forallb_app, Hh. cbn [forallb andb].
    now rewrite Hi.
Qed.


End RoundTrip.

(** ** How a wait ends *)

Section WaitOutcome.
Context {RT : PyRuntime}.


End WaitOutcome.

(** * Examples

    The theorems above at concrete inputs. *)

Section Examples.

#[local] Existing Instance reference_runtime.

Lemma forced_minimal_prompt_raises_witness :
  _create_reasoning_prompt overlong_task [] = Raise ValueError.
Proof.
  apply (forced_minimal_prompt_raises (RT := reference_runtime)).
  unfold fits. vm_compute. intros H. apply H. reflexivity.
Defined.

Lemma budget_keeps_longest_fitting_suffix_witness :
  let template := base_prompt_template (u "hi") _load_tools_hints in
  exists dropped included,
    example_history = dropped ++ included /\
    included = select_history 340 template (rev example_history) [] /\
    render template [JInt 1; JInt 2] = render template included /\
    2 = length included /\
    (true = true <-> dropped <> []) /\
    fits 340 template included /\
    (forall older item, dropped = older ++ [item] ->
       ~ fits 340 template (item :: included)) /\
    (forall dropped' included', example_history = dropped' ++ included' ->
       fits 340 template included' -> length included' <= length included).
Proof.
  apply (budget_keeps_longest_fitting_suffix (RT := reference_runtime)
           340 _load_tools_hints (u "hi") example_history).
  vm_compute. reflexivity.
Defined.

Lemma wait_raises_on_non_object_witness :
  _wait_for_response 2 ([log_line; Empty] ++ null_line :: [])
  = Raise AttributeError.
Proof.
  apply (@wait_raises_on_non_object _ 2 [log_line; Empty] null_line JNull []).
  - repeat constructor; exact I.
  - reflexivity.
Defined.

Lemma handshake_ready_in_either_order_witness :
  let a := new_agent true in
  let started := _send_mcp_raw (next_request_id a) (initialize_request 1) in
  let ready := (_send_mcp_raw started initialized_notification,
                Ok (JArr [JStr (u "messages")])) in
  _perform_handshake a ([log_line] ++ init_response_line :: [Empty] ++ tools_ready_line :: [])
    = ready /\
  _perform_handshake a ([log_line] ++ tools_ready_line :: [Empty] ++ init_response_line :: [])
    = ready /\
  _perform_handshake a ([log_line] ++ init_response_line :: [Empty])
    = (started, Raise RuntimeError) /\
  _perform_handshake a ([log_line] ++ tools_ready_line :: [Empty])
    = (started, Raise RuntimeError).
Proof.
  apply (@handshake_ready_in_either_order _ (new_agent true) init_response_line
           tools_ready_line (JArr [JStr (u "messages")]) [log_line] [Empty] []).
  - repeat constructor.
  - repeat constructor.
  - vm_compute. reflexivity.
  - vm_compute. reflexivity.
  - reflexivity.
Defined.

(** C7, as stated, fails: after the response to [initialize] and a
    [tools_ready] notification whose tool list is empty the loop is not
    ready and runs to its deadline. *)
Lemma handshake_not_ready_with_empty_tool_list :
  ~ (forall init_id polls,
       observed_init init_id polls -> observed_tools_ready polls ->
       exists tools, handshake_loop init_id false (JArr []) polls = Ok tools).
Proof.
  intros H.
  destruct (H 1%Z [init_response_line; no_tools_ready_line]) as [tools Htools].
  - apply Exists_cons_hd. eexists. split; [vm_compute; reflexivity|reflexivity].
  - apply Exists_cons_tl, Exists_cons_hd.
    eexists. split; [vm_compute; reflexivity|reflexivity].
  - vm_compute in Htools. discriminate Htools.
Qed.

Lemma request_ids_count_up_witness :
  let a := fst (call_mcp_tool
                  (fst (_perform_handshake (new_agent true)
                          [init_response_line; tools_ready_line]))
                  (JStr (u "messages")) (JObj []) []) in
  exists n,
    request_ids (sent a) = first_ids n /\
    (Z.of_nat n < request_id a)%Z /\
    StronglySorted Z.lt (request_ids (sent a)) /\
    NoDup (request_ids (sent a)) /\
    Forall (fun i => 1 <= i < request_id a)%Z (request_ids (sent a)) /\
    forall name arguments polls,
      let a' := fst (call_mcp_tool a name arguments polls) in
      request_id a' = (request_id a + 1)%Z /\
      request_ids (sent a')
      = if stdin_open a then request_ids (sent a) ++ [request_id a]
        else request_ids (sent a).
Proof.
  apply request_ids_count_up.
  apply reach_call, reach_handshake, reach_new.
Defined.

Lemma no_json_appends_error_without_step_witness :
  let env := quiet_cycle (u "I am not sure what to do next.") [] in
  exists st',
    run_cycle env fresh_run = Continue st' /\
    history st' = history fresh_run ++ [reasoning_error_item (response_text env)] /\
    step st' = step fresh_run /\
    history_file st' = history_file fresh_run.
Proof.
  intros env.
  eapply (@no_json_appends_error_without_step _ env fresh_run _ fresh_run);
    vm_compute; reflexivity.
Defined.

Lemma bare_envelope_is_not_dispatched_witness :
  let env := quiet_cycle envelope_response [send_message_result_line] in
  exists st',
    run_cycle env fresh_run = Continue st' /\
    history st' = history fresh_run
                  ++ [parsing_error_item envelope_response
                        (decode_error_message envelope_cut)] /\
    transport st' = transport fresh_run.
Proof.
  intros env.
  eapply (@bare_envelope_is_not_dispatched _ env fresh_run _ fresh_run);
    vm_compute; reflexivity.
Defined.



(** Nor is the item of a response without JSON written: the file stays as
    it was, here absent. *)
Lemma reasoning_error_is_not_saved :
  exists st',
    run_cycle (quiet_cycle (u "I am not sure what to do next.") []) fresh_run
      = Continue st' /\
    length (history st') = 1 /\ history_file st' = None.
Proof. eexists. repeat split. Qed.

Lemma capabilities_reply_ends_run_witness :
  let env := quiet_cycle capabilities_response [capabilities_result_line] in
  exists e st3,
    run_cycle env fresh_run = Crashed e st3 /\
    history st3 = history fresh_run /\
    history_file st3 = history_file fresh_run /\
    (e = AttributeError \/ e = TypeError) /\
    (Forall (fun item => is_dict item = true)
       [JObj [(u "type", JStr (u "text")); (u "text", JStr (u "send_message"))]] ->
     e = AttributeError).
Proof.
  intros env.
  eapply (@capabilities_reply_ends_run _ env fresh_run _ fresh_run
            (JStr (u "messages")) capabilities_arguments capabilities_result).
  - vm_compute. reflexivity.
  - vm_compute. reflexivity.
  - vm_compute. reflexivity.
  - split; [|split].
    + eexists. eexists. split; [reflexivity|]. split; reflexivity.
    + eexists. split; [reflexivity|]. split; reflexivity.
    + apply Exists_cons_hd. eexists. eexists. split; reflexivity.
Defined.

(** C10, as stated, fails: with [null] in front of the item that has a
    text, the membership test raises [TypeError], not [AttributeError]. *)
Lemma null_item_raises_type_error :
  ~ (forall tool_args tool_result items,
       capabilities_reply tool_args tool_result items ->
       learn_capabilities tool_args tool_result = Raise AttributeError).
Proof.
  intros H.
  assert (P : capabilities_reply capabilities_arguments null_first_result
                [JNull; JObj [(u "text", JStr (u "send_message"))]]).
  { split; [|split].
    - eexists. eexists. split; [reflexivity|]. split; reflexivity.
    - eexists. split; [reflexivity|]. split; reflexivity.
    - apply Exists_cons_tl, Exists_cons_hd. eexists. eexists. split; reflexivity. }
  specialize (H _ _ _ P). vm_compute in H. discriminate H.
Qed.

(** The handshake of the examples ends in [ready_agent]. *)
Lemma ready_agent_reached :
  _perform_handshake (new_agent true) [init_response_line; tools_ready_line]
  = (ready_agent, Ok (JArr [JStr (u "messages")])).
Proof. vm_compute. reflexivity. Qed.

(** Two tool calls in a row: the history holds the two records in order,
    the file holds the same two, and the step counter is at 3. *)
Lemma two_tool_calls_are_recorded_and_saved :
  exists st',
    run_loop [quiet_cycle send_message_response [send_message_result_line];
              quiet_cycle send_message_response [log_line; second_result_line]]
             fresh_run = Continue st' /\
    history st' = [tool_call_item (JStr (u "messages")) send_message_arguments
                     send_message_result;
                   tool_call_item (JStr (u "messages")) send_message_arguments
                     send_message_result] /\
    history_file st' = Some (dumps_indent (JArr (history st'))) /\
    json_loads (match history_file st' with Some text => text | None => [] end)
      = Some (JArr (history st')) /\
    step st' = 3%Z /\
    request_ids (sent (transport st')) = first_ids 3.
Proof. eexists. repeat split; vm_compute; reflexivity. Qed.

(** After a response without JSON the next cycle starts with the same
    step number. *)
Lemma step_stays_after_reasoning_error :
  exists st',
    run_loop [quiet_cycle (u "I am not sure what to do next.") [];
              quiet_cycle (u "Still thinking.") []] fresh_run = Continue st' /\
    length (history st') = 2 /\ step st' = step fresh_run.
Proof. eexists. repeat split; vm_compute; reflexivity. Qed.

Lemma reset_iff_history_does_not_fit_witness :
  let template := base_prompt_template (u "hi") _load_tools_hints in
  (true = true <-> ~ fits 340 template example_history) /\
  (true = false ->
   render template [JInt 1; JInt 2] = render template example_history /\
   2 = length example_history).
Proof.
  apply (@reset_iff_history_does_not_fit _ 340 _load_tools_hints (u "hi")
           example_history (render (base_prompt_template (u "hi") _load_tools_hints)
                              [JInt 1; JInt 2]) true 2).
  vm_compute. reflexivity.
Defined.



Lemma handshake_returns_only_when_ready_witness :
  let a := new_agent true in
  let polls := [log_line; tools_ready_line; Empty; init_response_line] in
  truthy (JArr [JStr (u "messages")]) = true /\
  observed_init (request_id a) polls /\
  observed_tools_ready polls /\
  request_id ready_agent = (request_id a + 1)%Z /\
  (stdin_open a = true ->
   sent ready_agent = sent a ++ [initialize_request (request_id a);
                                 initialized_notification]).
Proof.
  intros a polls.
  apply (@handshake_returns_only_when_ready _ a polls ready_agent
           (JArr [JStr (u "messages")])).
  vm_compute. reflexivity.
Defined.

Lemma handshake_raises_on_malformed_witness :
  let a := new_agent true in
  _perform_handshake a ([log_line; Empty] ++ null_line :: [tools_ready_line])
  = (_send_mcp_raw (next_request_id a) (initialize_request (request_id a)),
     Raise AttributeError).
Proof.
  intros a.
  apply (@handshake_raises_on_malformed _ a [log_line; Empty] null_line
           [tools_ready_line]).
  - repeat constructor.
  - vm_compute. reflexivity.
Defined.

Lemma dispatched_call_is_well_formed_witness :
  truthy (JStr (u "messages")) = true /\
  is_dict get_unread_messages_arguments = true.
Proof.
  apply (@dispatched_call_is_well_formed _ fenced_envelope_response).
  vm_compute. reflexivity.
Defined.


Lemma backend_down_is_a_reasoning_error_witness :
  let env := quiet_cycle (ask_mixtral (fun _ => RequestFailed) default_retries) [] in
  run_cycle env fresh_run = Continue (append fresh_run (reasoning_error_item [])).
Proof.
  intros env.
  apply (@backend_down_is_a_reasoning_error _ env fresh_run
           (render (base_prompt_template (task fresh_run) _load_tools_hints)
              (history fresh_run))
           fresh_run (fun _ => RequestFailed)).
  - vm_compute. reflexivity.
  - reflexivity.
  - intros i _. reflexivity.
Defined.

Lemma run_loop_keeps_request_ids_witness :
  let envs := [quiet_cycle fenced_envelope_response [send_message_result_line];
               quiet_cycle (u "I am not sure what to do next.") []] in
  let a' := transport (outcome_state (run_loop envs fresh_run)) in
  reachable a' /\
  exists n, request_ids (sent a') = first_ids n /\ (Z.of_nat n < request_id a')%Z.
Proof.
  intros envs.
  apply (@run_loop_keeps_request_ids _ envs fresh_run).
  assert (H : reachable (fst (_perform_handshake (new_agent true)
                                [init_response_line; tools_ready_line])))
    by apply reach_handshake, reach_new.
  rewrite ready_agent_reached in H. exact H.
Defined.


Lemma restart_resumes_saved_history_witness :
  let env := corrected_cycle fenced_envelope_response [send_message_result_line]
               (u "Answer in Russian only.") in
  let st' := outcome_state (run_cycle env fresh_run) in
  start_run (new_agent true) (Some (u " greet user ")) (history_file st') true
  = Running {| task := strip (u " greet user ");
               history := history fresh_run
                          ++ [tool_call_item (JStr (u "messages"))
                                get_unread_messages_arguments send_message_result];
               step := Z.of_nat (length (history fresh_run)) + 2;
               transport := new_agent true;
               history_file := history_file st' |}.
Proof.
  intros env st'.
  eapply (@restart_resumes_saved_history _ env fresh_run _ fresh_run
            (JStr (u "messages")) get_unread_messages_arguments send_message_result
            st' (new_agent true) (u " greet user "));
    vm_compute; reflexivity.
Defined.

End Examples.
